(** * PDBe Aggregated API example notebook: residue-filtering pipeline

    A shallow embedding of the code cells of [example.ipynb] (and of the
    older copy of the same notebook) together with the properties of the
    three filtering stages and of the two helper functions.

    The notebook works on the Python objects produced by JSON decoding and
    on the kernel's global variables, so the embedding has three layers:
    - [Py]: decoded JSON objects, the exceptions the code can raise, and the
      Python operators the cells use ([==], [in], subscripting, iteration);
    - a state-and-exception monad over the kernel's global namespace, in
      which each code cell is written line by line;
    - typed records (the data model of the three endpoints) related to the
      JSON objects that represent them. *)

From Stdlib Require Import ZArith String Ascii List Bool Lia.
From Stdlib Require Import DecimalString DecimalNat.
From stdpp Require Import base tactics option list gmap strings fin_maps.

#[local] Set Warnings "-register-all".
Local Open Scope string_scope.
Local Open Scope Z_scope.

(** ** Python objects and operators *)

Module Py.

(** Objects that [response.json()] can produce.  Numbers are the integers
    (the index fields read by the notebook are integers); a dict is kept as
    its items in insertion order, keys being distinct as JSON decoding
    leaves them, and reading a key takes its first item. *)
Inductive value : Type :=
| VNone
| VBool (b : bool)
| VInt (n : Z)
| VStr (s : string)
| VList (l : list value)
| VDict (m : list (string * value)).

Inductive exn : Type :=
| NameError (name : string)
| KeyError (key : value)
| IndexError
| TypeError
| AttributeError (attr : string)
| ValueError (msg : string)
| JSONDecodeError
| RequestException (kind : string).

(** Outcome of evaluating an expression: a value, or a raised exception. *)
Inductive result (A : Type) : Type :=
| Ok (a : A)
| Err (e : exn).
Arguments Ok {A} a.
Arguments Err {A} e.

Definition is_ok {A} (r : result A) : bool :=
  match r with Ok _ => true | Err _ => false end.

Definition rbind {A B} (r : result A) (f : A -> result B) : result B :=
  match r with
  | Ok a => f a
  | Err e => Err e
  end.

(** [[f(x) for x in xs]] with [f] free of side effects: stops at the first
    exception. *)
Fixpoint rmap {A B} (f : A -> result B) (xs : list A) : result (list B) :=
  match xs with
  | [] => Ok []
  | x :: rest =>
      rbind (f x) (fun y => rbind (rmap f rest) (fun ys => Ok (y :: ys)))
  end.

(** [d.get(k)] on the items of a dict. *)
Fixpoint dict_get (k : string) (m : list (string * value)) : option value :=
  match m with
  | [] => None
  | (k', v) :: rest => if String.eqb k k' then Some v else dict_get k rest
  end.

Definition dict_has (k : string) (m : list (string * value)) : bool :=
  match dict_get k m with Some _ => true | None => false end.

(** Python's [==] on decoded objects; [bool] is a subclass of [int], so
    [True == 1]. *)
Fixpoint py_eq (a b : value) : bool :=
  match a, b with
  | VNone, VNone => true
  | VBool x, VBool y => Bool.eqb x y
  | VBool x, VInt n => Z.b2z x =? n
  | VInt n, VBool y => n =? Z.b2z y
  | VInt n, VInt m => n =? m
  | VStr s, VStr t => String.eqb s t
  | VList l, VList l' =>
      (fix eq_items (l l' : list value) : bool :=
         match l, l' with
         | [], [] => true
         | x :: r, y :: r' => py_eq x y && eq_items r r'
         | _, _ => false
         end) l l'
  | VDict m, VDict m' =>
      (Nat.eqb (length m) (length m')) &&
      (fix sub_items (m : list (string * value)) : bool :=
         match m with
         | [] => true
         | (k, v) :: r =>
             match dict_get k m' with
             | Some v' => py_eq v v'
             | None => false
             end && sub_items r
         end) m
  | _, _ => false
  end.

(** An object used as an index: an [int] (or a [bool]). *)
Definition as_index (k : value) : option Z :=
  match k with
  | VInt n => Some n
  | VBool b => Some (Z.b2z b)
  | _ => None
  end.

(** Position [i] of a sequence of length [len]; negative positions count
    from the end. *)
Definition position (len : nat) (i : Z) : option nat :=
  if (0 <=? i) && (i <? Z.of_nat len) then Some (Z.to_nat i)
  else if (i <? 0) && (- Z.of_nat len <=? i) then Some (Z.to_nat (Z.of_nat len + i))
  else None.

(** [o[k]]. *)
Definition getitem (o k : value) : result value :=
  match o with
  | VDict m =>
      match k with
      | VStr s =>
          match dict_get s m with
          | Some v => Ok v
          | None => Err (KeyError k)
          end
      | VList _ | VDict _ => Err TypeError
      | _ => Err (KeyError k)
      end
  | VList l =>
      match as_index k with
      | Some i =>
          match position (length l) i with
          | Some n =>
              match nth_error l n with
              | Some v => Ok v
              | None => Err IndexError
              end
          | None => Err IndexError
          end
      | None => Err TypeError
      end
  | VStr s =>
      match as_index k with
      | Some i =>
          match position (String.length s) i with
          | Some n =>
              match String.get n s with
              | Some c => Ok (VStr (String c EmptyString))
              | None => Err IndexError
              end
          | None => Err IndexError
          end
      | None => Err TypeError
      end
  | VNone | VBool _ | VInt _ => Err TypeError
  end.

Fixpoint chars (s : string) : list value :=
  match s with
  | EmptyString => []
  | String c rest => VStr (String c EmptyString) :: chars rest
  end.

(** The items a [for] loop or a comprehension draws from [o]. *)
Definition iter (o : value) : result (list value) :=
  match o with
  | VList l => Ok l
  | VDict m => Ok (map (fun kv => VStr (fst kv)) m)
  | VStr s => Ok (chars s)
  | VNone | VBool _ | VInt _ => Err TypeError
  end.

(** [x in c]. *)
Definition contains (c x : value) : result bool :=
  match c with
  | VList l => Ok (existsb (py_eq x) l)
  | VDict m =>
      match x with
      | VStr s => Ok (dict_has s m)
      | VList _ | VDict _ => Err TypeError
      | _ => Ok false
      end
  | VStr s =>
      match x with
      | VStr t =>
          Ok (match String.index 0 t s with Some _ => true | None => false end)
      | _ => Err TypeError
      end
  | VNone | VBool _ | VInt _ => Err TypeError
  end.

End Py.
Export Py.

(** ** The kernel's global namespace and the cell monad *)

(** The global namespace of the running kernel.  Its objects are decoded
    JSON objects, but for the three names that Steps 1 and 3 bind to a
    module and to functions: those are resolved by the scope of the
    helpers (see [rebinds]).  A cell is a computation that reads and
    rebinds the globals and may stop with an exception; what was bound
    before the exception stays bound. *)
Abbreviation env := (gmap string value).

Definition M (A : Type) : Type := env -> result A * env.

Definition ret {A} (a : A) : M A := fun e => (Ok a, e).

Definition bind {A B} (m : M A) (f : A -> M B) : M B :=
  fun e =>
    match m e with
    | (Ok a, e') => f a e'
    | (Err x, e') => (Err x, e')
    end.

Notation "x <- m ;; k" := (bind m (fun x => k))
  (at level 100, m at next level, right associativity).
Notation "m ;;; k" := (bind m (fun _ => k))
  (at level 100, right associativity).

(** Reading a global name. *)
Definition name (x : string) : M value :=
  fun e =>
    match e !! x with
    | Some v => (Ok v, e)
    | None => (Err (NameError x), e)
    end.

(** [x = v]. *)
Definition assign (x : string) (v : value) : M unit :=
  fun e => (Ok tt, <[x := v]> e).

(** An expression that touches no variable. *)
Definition lift {A} (r : result A) : M A := fun e => (r, e).

(** Calling a builtin through its name.  A global of that name shadows the
    builtin, and none of the decoded objects that the kernel holds can be
    called. *)
Definition builtin (x : string) : M unit :=
  fun e =>
    match e !! x with
    | Some _ => (Err TypeError, e)
    | None => (Ok tt, e)
    end.

(** [x = list()]. *)
Definition fresh_list (x : string) : M unit :=
  builtin "list" ;;; assign x (VList []).

(** A statement that binds [x] to a module or to a function ([import],
    [def]): whatever decoded object the kernel bound to [x] is bound to it
    no more, and what [x] stands for from then on is given by the scope of
    the helpers. *)
Definition rebinds (x : string) : M unit :=
  fun e => (Ok tt, delete x e).

(** [for x in items: body]; the loop variable is a global of the kernel. *)
Fixpoint for_each (x : string) (items : list value) (body : M unit) : M unit :=
  match items with
  | [] => ret tt
  | v :: rest => assign x v ;;; body ;;; for_each x rest body
  end.

(** [for x in items: body] where [body] answers [true] when it ran [break]. *)
Fixpoint for_break (x : string) (items : list value) (body : M bool) : M unit :=
  match items with
  | [] => ret tt
  | v :: rest =>
      assign x v ;;;
      stop <- body ;;
      if stop then ret tt else for_break x rest body
  end.

(** [xs.extend(ys)] for two global names.  The list bound to [xs] was made
    by [list()] in the same cell and no other name refers to it, so the
    in-place update is a rebinding of [xs]. *)
Definition extend (xs ys : string) : M unit :=
  o <- name xs ;;
  match o with
  | VList l =>
      a <- name ys ;;
      more <- lift (iter a) ;;
      assign xs (VList (l ++ more))
  | _ => lift (Err (AttributeError "extend"))
  end.

(** [xs.append(arg)] for a global name [xs]; the method is looked up
    before the argument is evaluated. *)
Definition append (xs : string) (arg : M value) : M unit :=
  o <- name xs ;;
  match o with
  | VList l =>
      a <- arg ;;
      assign xs (VList (l ++ [a]))
  | _ => lift (Err (AttributeError "append"))
  end.

(** [doc_var[acc_var]["data"]], then the items the loop will visit. *)
Definition data_items (doc_var acc_var : string) : M (list value) :=
  d <- name doc_var ;;
  k <- name acc_var ;;
  a <- lift (getitem d k) ;;
  b <- lift (getitem a (VStr "data")) ;;
  lift (iter b).

(** ** The three filtering cells *)

(** Step 4, second cell.  The provider allowlist is the list literal
    [["p2rank", "cansar"]] in the notebook. *)
Definition predicted_body (allow : list string) : M unit :=
  pd <- name "provider_data" ;;
  acc <- lift (getitem pd (VStr "accession")) ;;
  hit <- lift (contains (VList (map VStr allow)) acc) ;;
  if hit : bool then
    pd <- name "provider_data" ;;
    rs <- lift (getitem pd (VStr "residues")) ;;
    xs <- lift (iter rs) ;;
    residues <- lift (rmap (fun x => getitem x (VStr "startIndex")) xs) ;;
    assign "residues" (VList residues) ;;;
    extend "all_predicted_ligand_binding_residues" "residues"
  else ret tt.

Definition predicted_cell (allow : list string) : M unit :=
  fresh_list "all_predicted_ligand_binding_residues" ;;;
  items <- data_items "annotations_data" "ACCESSION" ;;
  for_each "provider_data" items (predicted_body allow).

(** [[x["startIndex"] for x in xs if x["startIndex"] in cand]]: the
    condition is evaluated first, the global [cand] being read at each
    element, then the element expression. *)
Fixpoint interacting (cand : string) (xs : list value) : M (list value) :=
  match xs with
  | [] => ret []
  | x :: rest =>
      i <- lift (getitem x (VStr "startIndex")) ;;
      c <- name cand ;;
      hit <- lift (contains c i) ;;
      if hit : bool then
        v <- lift (getitem x (VStr "startIndex")) ;;
        vs <- interacting cand rest ;;
        ret (v :: vs)
      else interacting cand rest
  end.

(** Step 6.  [acc_var] and [cand_var] are the two names on which the two
    copies of the notebook differ; [partner] is the string literal
    ["Hirudin variant-1"]. *)
Definition interface_body (cand_var partner : string) : M unit :=
  it <- name "item" ;;
  n <- lift (getitem it (VStr "name")) ;;
  if py_eq n (VStr partner) then
    it <- name "item" ;;
    rs <- lift (getitem it (VStr "residues")) ;;
    xs <- lift (iter rs) ;;
    found <- interacting cand_var xs ;;
    assign "interacting_residues" (VList found) ;;;
    extend "interface_residues_with_hirudin" "interacting_residues"
  else ret tt.

Definition interface_cell (acc_var cand_var partner : string) : M unit :=
  fresh_list "interface_residues_with_hirudin" ;;;
  items <- data_items "interactions_data" acc_var ;;
  for_each "item" items (interface_body cand_var partner).

(** Step 7, second cell: the test on one residue of the current ligand,
    answering whether the inner loop breaks. *)
Definition ligand_probe : M bool :=
  r <- name "residue" ;;
  i <- lift (getitem r (VStr "startIndex")) ;;
  c <- name "interface_residues_with_hirudin" ;;
  hit <- lift (contains c i) ;;
  if hit : bool then
    append "ligand_list"
      (lg <- name "ligand" ;; lift (getitem lg (VStr "accession"))) ;;;
    ret true
  else ret false.

Definition ligand_body : M unit :=
  lg <- name "ligand" ;;
  rs <- lift (getitem lg (VStr "residues")) ;;
  xs <- lift (iter rs) ;;
  for_break "residue" xs ligand_probe.

Definition ligand_cell (acc_var : string) : M unit :=
  fresh_list "ligand_list" ;;;
  items <- data_items "ligands_data" acc_var ;;
  for_each "ligand" items ligand_body.

(** The cells as they stand in [example.ipynb]. *)
Module Example.
Definition step4 : M unit := predicted_cell ["p2rank"; "cansar"].
Definition step6 : M unit :=
  interface_cell "ACCESSION" "all_predicted_ligand_binding_residues"
    "Hirudin variant-1".
Definition step7 : M unit := ligand_cell "ACCESSION".
End Example.

(** The cells as they stand in the older copy of the notebook: Steps 6 and
    7 read [accession] and [all_ligand_binding_residues]. *)
Module Older.
Definition step4 : M unit := predicted_cell ["p2rank"; "cansar"].
Definition step6 : M unit :=
  interface_cell "accession" "all_ligand_binding_residues"
    "Hirudin variant-1".
Definition step7 : M unit := ligand_cell "accession".
End Older.

(** ** The two helper functions of Step 3 *)

(** A [requests] response object, as far as the notebook looks at it: the
    attribute [status_code] and the outcome of the method [json()], which
    raises when the body is not a JSON text. *)
Record Response : Type := {
  status_code : Z;
  json : result value
}.

(** What a global or builtin name is bound to when a function body looks
    it up: an exception class, or anything else. *)
Inductive binding : Type :=
| BExcClass (cls : string)
| BOther.

(** The builtin exception classes an exception is an instance of. *)
Definition exn_classes (e : exn) : list string :=
  match e with
  | NameError _ => ["NameError"]
  | KeyError _ => ["KeyError"; "LookupError"]
  | IndexError => ["IndexError"; "LookupError"]
  | TypeError => ["TypeError"]
  | AttributeError _ => ["AttributeError"]
  | ValueError _ => ["ValueError"]
  | JSONDecodeError => ["ValueError"]
  | RequestException _ => ["OSError"; "IOError"; "EnvironmentError"]
  end ++ ["Exception"; "BaseException"].

Definition catches (cls : string) (e : exn) : bool :=
  existsb (String.eqb cls) (exn_classes e).

(** [str(err)]. *)
Definition exn_str (e : exn) : string :=
  match e with
  | NameError x => "name '" ++ x ++ "' is not defined"
  | KeyError (VStr k) => "'" ++ k ++ "'"
  | ValueError msg => msg
  | RequestException kind => kind
  | AttributeError a => a
  | _ => ""
  end.

(** The effects of a helper that the properties speak of: lines printed
    and calls of [json()]. *)
Inductive event : Type :=
| Printed (line : string)
| JsonCalled.

(** [get_data(accession, url)].  [scope] resolves the names the body looks
    up and [http_get] stands for [requests.get]; the answer is a response,
    or [None] when the function falls off its end. *)
Definition get_data (scope : string -> option binding)
    (http_get : string -> result Response) (accession url : string)
  : result (option Response) * list event :=
  match (match scope "requests" with
         | Some _ => http_get url
         | None => Err (NameError "requests")
         end) with
  | Ok r => (Ok (Some r), [])
  | Err err =>
      match scope "Error" with
      | None => (Err (NameError "Error"), [])
      | Some (BExcClass cls) =>
          if catches cls err then
            (Ok None,
             [Printed ("There was an error while retrieving the data: "
                       ++ exn_str err)])
          else (Err err, [])
      | Some BOther => (Err TypeError, [])
      end
  end.

(** [parse_data(data)], [data] being what [get_data] answered. *)
Definition parse_data (data : option Response) : result value * list event :=
  match data with
  | None => (Err (AttributeError "status_code"), [])
  | Some r =>
      if status_code r =? 200 then (json r, [JsonCalled])
      else (Err (ValueError "No data received"), [])
  end.

(** Every name that a cell of the notebook binds, with the names that
    IPython itself puts in the kernel: the most that the body of a helper
    can ever find among the globals. *)
Definition notebook_globals : list string :=
  ["requests"; "ACCESSION"; "ANNOTATIONS_URL"; "INTERACTIONS_URL";
   "LIGANDS_URL"; "get_data"; "parse_data"; "annotations_data";
   "all_predicted_ligand_binding_residues"; "provider_data"; "residues";
   "interactions_data"; "interaction_partner_names"; "item";
   "interface_residues_with_hirudin"; "interacting_residues";
   "ligands_data"; "ligand_list"; "ligand"; "residue";
   "In"; "Out"; "get_ipython"; "exit"; "quit";
   "_"; "__"; "___"; "_i"; "_ii"; "_iii"; "_ih"; "_oh"; "_dh"].

(** Python's builtin exception classes. *)
Definition builtin_exceptions : list string :=
  ["BaseException"; "SystemExit"; "KeyboardInterrupt"; "GeneratorExit";
   "Exception"; "StopIteration"; "StopAsyncIteration"; "ArithmeticError";
   "FloatingPointError"; "OverflowError"; "ZeroDivisionError";
   "AssertionError"; "AttributeError"; "BufferError"; "EOFError";
   "ImportError"; "ModuleNotFoundError"; "LookupError"; "IndexError";
   "KeyError"; "MemoryError"; "NameError"; "UnboundLocalError"; "OSError";
   "EnvironmentError"; "IOError"; "BlockingIOError"; "ChildProcessError";
   "ConnectionError"; "BrokenPipeError"; "ConnectionAbortedError";
   "ConnectionRefusedError"; "ConnectionResetError"; "FileExistsError";
   "FileNotFoundError"; "InterruptedError"; "IsADirectoryError";
   "NotADirectoryError"; "PermissionError"; "ProcessLookupError";
   "TimeoutError"; "ReferenceError"; "RuntimeError"; "NotImplementedError";
   "RecursionError"; "SyntaxError"; "IndentationError"; "TabError";
   "SystemError"; "TypeError"; "ValueError"; "UnicodeError";
   "UnicodeDecodeError"; "UnicodeEncodeError"; "UnicodeTranslateError";
   "Warning"; "DeprecationWarning"; "PendingDeprecationWarning";
   "RuntimeWarning"; "SyntaxWarning"; "UserWarning"; "FutureWarning";
   "ImportWarning"; "UnicodeWarning"; "BytesWarning"; "ResourceWarning"].

(** Python's other builtin names. *)
Definition builtin_others : list string :=
  ["abs"; "all"; "any"; "ascii"; "bin"; "bool"; "bytearray"; "bytes";
   "callable"; "chr"; "classmethod"; "compile"; "complex"; "delattr";
   "dict"; "dir"; "divmod"; "enumerate"; "eval"; "exec"; "filter"; "float";
   "format"; "frozenset"; "getattr"; "globals"; "hasattr"; "hash"; "help";
   "hex"; "id"; "input"; "int"; "isinstance"; "issubclass"; "iter"; "len";
   "list"; "locals"; "map"; "max"; "memoryview"; "min"; "next"; "object";
   "oct"; "open"; "ord"; "pow"; "print"; "property"; "range"; "repr";
   "reversed"; "round"; "set"; "setattr"; "slice"; "sorted";
   "staticmethod"; "str"; "sum"; "super"; "tuple"; "type"; "vars"; "zip";
   "None"; "True"; "False"; "Ellipsis"; "NotImplemented"].

Definition mem (x : string) (l : list string) : bool :=
  existsb (String.eqb x) l.

(** Name resolution in the notebook: globals first, then builtins. *)
Definition notebook_scope (x : string) : option binding :=
  if mem x notebook_globals then Some BOther
  else if mem x builtin_exceptions then Some (BExcClass x)
  else if mem x builtin_others then Some BOther
  else None.

(** The scope the handler of [get_data] would need: [Error] bound to a
    class that the exceptions of [requests] inherit from. *)
Definition scope_with_Error (cls : string) (x : string) : option binding :=
  if String.eqb x "Error" then Some (BExcClass cls) else notebook_scope x.

(** ** The data model of the three endpoints *)

Record Annotation : Type := {
  providerAccession : string;
  annotationResidues : list Z
}.

Record Interaction : Type := {
  partnerName : string;
  interfaceResidues : list Z
}.

Record Ligand : Type := {
  ligandAccession : string;
  ligandResidues : list Z
}.

(** A decoded residue object: a dict with an integer [startIndex] (and any
    other fields). *)
Definition residue_obj (o : value) (z : Z) : Prop :=
  exists m, o = VDict m /\ dict_get "startIndex" m = Some (VInt z).

(** A decoded record: a dict whose field [id_key] is the string [id] and
    whose field [residues] lists residue objects. *)
Definition record_obj (id_key : string) (o : value) (id : string)
    (zs : list Z) : Prop :=
  exists m rs,
    o = VDict m /\
    dict_get id_key m = Some (VStr id) /\
    dict_get "residues" m = Some (VList rs) /\
    Forall2 residue_obj rs zs.

Definition annotation_obj (o : value) (r : Annotation) : Prop :=
  record_obj "accession" o (providerAccession r) (annotationResidues r).

Definition interaction_obj (o : value) (r : Interaction) : Prop :=
  record_obj "name" o (partnerName r) (interfaceResidues r).

Definition ligand_obj (o : value) (r : Ligand) : Prop :=
  record_obj "accession" o (ligandAccession r) (ligandResidues r).

(** A decoded endpoint document: keyed by the accession, then by ["data"],
    down to the list of record objects. *)
Definition document (doc : value) (acc : string) (items : list value) : Prop :=
  exists m inner,
    doc = VDict m /\
    dict_get acc m = Some (VDict inner) /\
    dict_get "data" inner = Some (VList items).

(** The kernel holds the typed inputs of a stage: the document under
    [doc_var], the accession under [ACCESSION]. *)
Definition holds {R} (rep : value -> R -> Prop) (doc_var : string)
    (e : env) (recs : list R) : Prop :=
  exists doc acc items,
    e !! doc_var = Some doc /\
    e !! "ACCESSION" = Some (VStr acc) /\
    document doc acc items /\
    Forall2 rep items recs.

(** ** The three operations as the specification words them *)

Definition memZ (z : Z) (l : list Z) : bool := existsb (Z.eqb z) l.

(** Every residue of every record whose provider is on the allowlist, in
    encounter order, duplicates kept. *)
Definition extractPredictedBindingResidues (recs : list Annotation)
    (allow : list string) : list Z :=
  flat_map annotationResidues
    (List.filter (fun r => mem (providerAccession r) allow) recs).

(** Of every record whose partner name equals the target, the residues
    that are members of the candidate collection, in order. *)
Definition extractInterfaceResidues (recs : list Interaction)
    (partner : string) (cand : list Z) : list Z :=
  flat_map (fun r => List.filter (fun z => memZ z cand) (interfaceResidues r))
    (List.filter (fun r => String.eqb (partnerName r) partner) recs).

(** A record qualifies when any of its residues is in the target set. *)
Definition qualifies (target : list Z) (r : Ligand) : bool :=
  existsb (fun z => memZ z target) (ligandResidues r).

(** The accession of every qualifying record, once per record. *)
Definition extractLigandsOverlapping (recs : list Ligand)
    (target : list Z) : list string :=
  map ligandAccession (List.filter (qualifies target) recs).

(** ** The pipeline and what two kernels share *)

(** The three filtering cells run in order; the run stops at the first
    exception. *)
Definition pipeline (step4 step6 step7 : M unit) : M unit :=
  step4 ;;; step6 ;;; step7.

Definition input_names : list string :=
  ["annotations_data"; "interactions_data"; "ligands_data"; "ACCESSION"].

Definition output_names : list string :=
  ["all_predicted_ligand_binding_residues";
   "interface_residues_with_hirudin"; "ligand_list"].

(** Every name the three cells bind: loop variables, temporaries and the
    three outputs. *)
Definition cell_names : list string :=
  ["provider_data"; "residues"; "all_predicted_ligand_binding_residues";
   "item"; "interacting_residues"; "interface_residues_with_hirudin";
   "ligand"; "residue"; "ligand_list"].

(** Two kernels bind the names of [xs] alike. *)
Definition agree (xs : list string) (e1 e2 : env) : Prop :=
  forall x, In x xs -> e1 !! x = e2 !! x.

(** Run on two kernels that agree on [pre], the computation ends alike,
    and when it ends normally the kernels agree on [post]. *)
Definition sim {A} (pre post : list string) (m : M A) : Prop :=
  forall e1 e2, agree pre e1 e2 ->
    fst (m e1) = fst (m e2) /\
    (is_ok (fst (m e1)) = true -> agree post (snd (m e1)) (snd (m e2))).

(** Run on two kernels related by [R], the computation ends alike and
    leaves kernels related by [R], whether or not it raised. *)
Definition lockstep {A} (R : env -> env -> Prop) (m : M A) : Prop :=
  forall e1 e2, R e1 e2 ->
    fst (m e1) = fst (m e2) /\ R (snd (m e1)) (snd (m e2)).

(** Two kernels that differ at most in the list bound to [cand]. *)
Definition twins (cand : string) (c1 c2 : list value) (e1 e2 : env) : Prop :=
  (forall x, x <> cand -> e1 !! x = e2 !! x) /\
  e1 !! cand = Some (VList c1) /\
  e2 !! cand = Some (VList c2).

(** The computation rebinds no name outside [xs]. *)
Definition writes_only {A} (xs : list string) (m : M A) : Prop :=
  forall e x, ~ In x xs -> snd (m e) !! x = e !! x.

Abbreviation PRED := "all_predicted_ligand_binding_residues".
Abbreviation IFACE := "interface_residues_with_hirudin".
Abbreviation LIGS := "ligand_list".









(** ** The worked example *)

(** Output of the cell that prints the predicted binding residues. *)
Definition worked_predicted : list Z :=
  [136; 237; 246; 251; 265; 273; 324; 329; 330; 331; 332; 333; 334; 336;
   372; 383; 386; 388; 389; 390; 391; 396; 400; 406; 407; 410; 413; 414;
   415; 417; 434; 436; 459; 493; 506; 507; 510; 511; 530; 541; 549; 565;
   566; 568; 572; 574; 585; 589; 590; 591; 596; 597; 605; 613; 615; 617].

(** Output of the cell that prints the interface residues. *)
Definition worked_interface : list Z :=
  [388; 406; 434; 541; 565; 566; 568; 589; 591].

(** [rs] is [l] with residues that are not candidates put in between. *)
Inductive interleaved (cand : list Z) : list Z -> list Z -> Prop :=
| interleaved_nil : interleaved cand [] []
| interleaved_keep z l rs :
    interleaved cand l rs -> interleaved cand (z :: l) (z :: rs)
| interleaved_other z l rs :
    ~ In z cand -> interleaved cand l rs -> interleaved cand l (z :: rs).

(** The residues of the records named [partner], in encounter order. *)
Definition partner_residues (recs : list Interaction) (partner : string)
  : list Z :=
  flat_map interfaceResidues
    (List.filter (fun r => String.eqb (partnerName r) partner) recs).

(** Building decoded objects from typed records, for concrete kernels. *)
Definition residue_json (z : Z) : value :=
  VDict [("startIndex", VInt z); ("endIndex", VInt z)].

Definition record_json (id_key id : string) (zs : list Z) : value :=
  VDict [(id_key, VStr id); ("residues", VList (map residue_json zs))].

Definition document_json (acc : string) (items : list value) : value :=
  VDict [(acc, VDict [("data", VList items)])].

Definition annotation_json (r : Annotation) : value :=
  record_json "accession" (providerAccession r) (annotationResidues r).

Definition interaction_json (r : Interaction) : value :=
  record_json "name" (partnerName r) (interfaceResidues r).

Definition ligand_json (r : Ligand) : value :=
  record_json "accession" (ligandAccession r) (ligandResidues r).

(** The kernel once the three documents have been fetched and decoded and
    before any filtering cell has run. *)
Definition kernel (anns : list Annotation) (ints : list Interaction)
    (ligs : list Ligand) : env :=
  <["ACCESSION" := VStr "P00734"]>
  (<["annotations_data" := document_json "P00734" (map annotation_json anns)]>
  (<["interactions_data" := document_json "P00734" (map interaction_json ints)]>
  (<["ligands_data" := document_json "P00734" (map ligand_json ligs)]> ∅))).

(** ** Concrete kernels *)

(** A small data set: two allowlisted providers and one that is not; a
    partner whose name differs from the target only by case; a ligand
    accession on several records and a ligand with no residue. *)
Definition demo_annotations : list Annotation :=
  [ {| providerAccession := "p2rank"; annotationResidues := [1; 2; 3] |};
    {| providerAccession := "3dligandsite"; annotationResidues := [7] |};
    {| providerAccession := "cansar"; annotationResidues := [3; 4] |} ].

Definition demo_interactions : list Interaction :=
  [ {| partnerName := "Prothrombin"; interfaceResidues := [1; 2] |};
    {| partnerName := "Hirudin variant-1"; interfaceResidues := [9; 3; 1; 8] |};
    {| partnerName := "hirudin variant-1"; interfaceResidues := [4] |} ].

Definition demo_ligands : list Ligand :=
  [ {| ligandAccession := "TYS"; ligandResidues := [5; 3] |};
    {| ligandAccession := "GOL"; ligandResidues := [5] |};
    {| ligandAccession := "MRD"; ligandResidues := [1; 3; 1] |};
    {| ligandAccession := "TYS"; ligandResidues := [1] |};
    {| ligandAccession := "NA"; ligandResidues := [] |} ].

Definition demo_kernel : env :=
  kernel demo_annotations demo_interactions demo_ligands.

(** Data shaped like the worked example: the allowlisted providers give
    the printed predicted residues; the record of Hirudin variant-1 lists
    the nine printed interface residues among residues that are not
    predicted. *)
Definition worked_annotations : list Annotation :=
  [ {| providerAccession := "p2rank";
       annotationResidues := firstn 30 worked_predicted |};
    {| providerAccession := "14-3-3-pred"; annotationResidues := [100; 200] |};
    {| providerAccession := "cansar";
       annotationResidues := skipn 30 worked_predicted |} ].

Definition worked_interactions : list Interaction :=
  [ {| partnerName := "Prothrombin"; interfaceResidues := [136; 388] |};
    {| partnerName := "Hirudin variant-1";
       interfaceResidues :=
         [100; 388; 406; 200; 434; 541; 565; 566; 568; 589; 591; 600] |};
    {| partnerName := "Hirudin-2"; interfaceResidues := [388; 617] |} ].

Definition worked_kernel : env :=
  kernel worked_annotations worked_interactions [].

(** The same data, except that the record of Hirudin variant-1 also lists
    residue 136, which is one of the predicted residues. *)
Definition overlapping_interactions : list Interaction :=
  [ {| partnerName := "Hirudin variant-1";
       interfaceResidues := 136 :: worked_interface |} ].

Definition overlapping_kernel : env :=
  kernel worked_annotations overlapping_interactions [].

(** Kernels for the later stages: the candidates of stage 2 and the
    target residues of stage 3 already bound. *)
Definition demo_kernel_with_predicted : env :=
  <[PRED := VList (map VInt [1; 2; 3; 3; 4])]> demo_kernel.

Definition demo_kernel_with_interface : env :=
  <[IFACE := VList (map VInt [3; 1])]> demo_kernel.

(** A kernel with leftovers of an earlier session. *)
Definition demo_kernel_stale : env :=
  <[LIGS := VList [VStr "XXX"]]> (<["scratch" := VInt 0]> demo_kernel).




(** A response with status 200 and a decoded body, one with status 404,
    and one with status 200 whose body is not a JSON text. *)
Definition response_ok : Response :=
  {| status_code := 200;
     json := Ok (document_json "P00734" (map annotation_json demo_annotations)) |}.

Definition response_not_found : Response :=
  {| status_code := 404; json := Ok (VDict []) |}.

Definition response_garbled : Response :=
  {| status_code := 200; json := Err JSONDecodeError |}.

(** A network on which every request fails at the transport level. *)
Definition unreachable (url : string) : result Response :=
  Err (RequestException "ConnectionError").

(** ** The rest of the notebook *)

(** Step 2.  The f-strings put the string just bound to [ACCESSION] after
    the address of each endpoint. *)
Definition api_base : string :=
  "https://www.ebi.ac.uk/pdbe/graph-api/uniprot/".

Definition endpoint_url (endpoint accession : string) : string :=
  api_base ++ endpoint ++ "/" ++ accession.

Definition step2_cell (accession : string) : M unit :=
  assign "ACCESSION" (VStr accession) ;;;
  assign "ANNOTATIONS_URL" (VStr (endpoint_url "annotations" accession)) ;;;
  assign "INTERACTIONS_URL"
    (VStr (endpoint_url "interface_residues" accession)) ;;;
  assign "LIGANDS_URL" (VStr (endpoint_url "ligand_sites" accession)).

(** [parse_data(get_data(accession, url))]: the argument is evaluated
    first, and [parse_data] runs only if [get_data] answered. *)
Definition fetch (scope : string -> option binding)
    (http_get : string -> result Response) (accession url : string)
  : result value * list event :=
  match get_data scope http_get accession url with
  | (Ok data, evs) =>
      match parse_data data with
      | (r, evs') => (r, (evs ++ evs')%list)
      end
  | (Err x, evs) => (Err x, evs)
  end.

(** What a cell writes under itself: the effects of the helpers, and
    [print(v)] of an object, kept as the object whose text is shown. *)
Inductive output : Type :=
| Effect (ev : event)
| Shown (v : value).

(** A cell of the notebook: it changes the kernel, may raise, and writes
    output. *)
Definition IO (A : Type) : Type := env -> result A * env * list output.

(** A cell that writes nothing. *)
Definition quiet {A} (m : M A) : IO A := fun e => (m e, []).

(** Running the cells from top to bottom; the run stops at the first cell
    that raises. *)
Fixpoint run_all (cells : list (IO unit)) : IO unit :=
  fun e =>
    match cells with
    | [] => (Ok tt, e, [])
    | c :: rest =>
        match c e with
        | (Ok _, e', out) =>
            match run_all rest e' with
            | (r, e'', out') => (r, e'', (out ++ out')%list)
            end
        | (Err x, e', out) => (Err x, e', out)
        end
    end.

(** The address handed to [requests.get]: a string goes to the network;
    any other object is refused by [requests] with one of its own
    exceptions. *)
Definition requests_get (net : string -> result Response) (u : value)
  : string -> result Response :=
  match u with
  | VStr _ => net
  | _ => fun _ => Err (RequestException "MissingSchema")
  end.

Definition text_of (v : value) : string :=
  match v with
  | VStr s => s
  | _ => ""
  end.

(** [var = parse_data(get_data(ACCESSION, url_var))].  The names are looked
    up from left to right: the two helpers, then the two arguments; the
    helpers are those of Step 3 whenever the scope binds their names.
    [get_data] makes no use of its first argument. *)
Definition fetch_cell (scope : string -> option binding)
    (net : string -> result Response) (var url_var : string) : IO unit :=
  fun e =>
    match scope "parse_data" with
    | None => (Err (NameError "parse_data"), e, [])
    | Some _ =>
        match scope "get_data" with
        | None => (Err (NameError "get_data"), e, [])
        | Some _ =>
            match e !! "ACCESSION" with
            | None => (Err (NameError "ACCESSION"), e, [])
            | Some a =>
                match e !! url_var with
                | None => (Err (NameError url_var), e, [])
                | Some u =>
                    match fetch scope (requests_get net u)
                            (text_of a) (text_of u) with
                    | (Ok doc, evs) =>
                        (Ok tt, <[var := doc]> e, map Effect evs)
                    | (Err x, evs) => (Err x, e, map Effect evs)
                    end
                end
            end
        end
    end.

(** [print(x)] for a global name [x]: the argument is evaluated, then
    [print] is called. *)
Definition show_cell (x : string) : IO unit :=
  fun e =>
    match e !! x with
    | Some v =>
        match e !! "print" with
        | None => (Ok tt, e, [Shown v])
        | Some _ => (Err TypeError, e, [])
        end
    | None => (Err (NameError x), e, [])
    end.

(** Step 5, second cell, up to its [print]. *)
Definition partner_names_loop : M unit :=
  fresh_list "interaction_partner_names" ;;;
  items <- data_items "interactions_data" "ACCESSION" ;;
  for_each "item" items
    (append "interaction_partner_names"
       (it <- name "item" ;; lift (getitem it (VStr "name")))).

Definition partner_names_cell : IO unit :=
  fun e =>
    match partner_names_loop e with
    | (Ok _, e') =>
        match show_cell "interaction_partner_names" e' with
        | (r, e'', out) => (r, e'', out)
        end
    | (Err x, e') => (Err x, e', [])
    end.

(** [len(v)]. *)
Definition py_len (v : value) : result nat :=
  match v with
  | VList l => Ok (length l)
  | VDict m => Ok (length m)
  | VStr s => Ok (String.length s)
  | VNone | VBool _ | VInt _ => Err TypeError
  end.

(** ["%i" % n] for a length. *)
Definition decimal (n : nat) : string :=
  NilEmpty.string_of_uint (Nat.to_uint n).

(** Step 7, the cell that prints the number of ligands: the operand of
    [len] is evaluated, [len] is called, the line is formatted, then
    [print] is called. *)
Definition count_cell : IO unit :=
  fun e =>
    match e !! "ligand_list" with
    | None => (Err (NameError "ligand_list"), e, [])
    | Some v =>
        match e !! "len" with
        | Some _ => (Err TypeError, e, [])
        | None =>
            match py_len v with
            | Ok n =>
                match e !! "print" with
                | None =>
                    (Ok tt, e,
                     [Effect (Printed
                        ("There are " ++ decimal n ++
                         " ligands observed in PDB that bind to this "))])
                | Some _ => (Err TypeError, e, [])
                end
            | Err x => (Err x, e, [])
            end
        end
    end.

(** Step 7, last cell: a heading, then the list. *)
Definition listing_cell : IO unit :=
  fun e =>
    match e !! "print" with
    | Some _ => (Err TypeError, e, [])
    | None =>
        match e !! "ligand_list" with
        | Some v =>
            (Ok tt, e,
             [Effect (Printed
                "These are the Chemical Componant identifiers of the ligands:");
              Shown v])
        | None =>
            (Err (NameError "ligand_list"), e,
             [Effect (Printed
                "These are the Chemical Componant identifiers of the ligands:")])
        end
    end.

(** Step 1, [import requests] with the package installed, and Step 3,
    the two [def]s. *)
Definition import_cell : M unit := rebinds "requests".

Definition helpers_cell : M unit :=
  rebinds "get_data" ;;; rebinds "parse_data".

(** The code cells of [example.ipynb] in order.  What the cells of Steps 1
    and 3 bind is resolved by [scope] when a helper is called. *)
Definition example_notebook (scope : string -> option binding)
    (net : string -> result Response) (accession : string)
  : list (IO unit) :=
  [ quiet import_cell;
    quiet (step2_cell accession);
    quiet helpers_cell;
    fetch_cell scope net "annotations_data" "ANNOTATIONS_URL";
    quiet Example.step4;
    show_cell "all_predicted_ligand_binding_residues";
    fetch_cell scope net "interactions_data" "INTERACTIONS_URL";
    partner_names_cell;
    quiet Example.step6;
    show_cell "interface_residues_with_hirudin";
    fetch_cell scope net "ligands_data" "LIGANDS_URL";
    quiet Example.step7;
    count_cell;
    listing_cell ].

(** The code cells of the older copy in order; it has no listing cell. *)
Definition older_notebook (scope : string -> option binding)
    (net : string -> result Response) (accession : string)
  : list (IO unit) :=
  [ quiet import_cell;
    quiet (step2_cell accession);
    quiet helpers_cell;
    fetch_cell scope net "annotations_data" "ANNOTATIONS_URL";
    quiet Older.step4;
    show_cell "all_predicted_ligand_binding_residues";
    fetch_cell scope net "interactions_data" "INTERACTIONS_URL";
    partner_names_cell;
    quiet Older.step6;
    show_cell "interface_residues_with_hirudin";
    fetch_cell scope net "ligands_data" "LIGANDS_URL";
    quiet Older.step7;
    count_cell ].

(** A network that serves the three documents of an accession with
    status 200 and answers 404 to anything else. *)
Definition serving (accession : string) (anns : list Annotation)
    (ints : list Interaction) (ligs : list Ligand) (url : string)
  : result Response :=
  if String.eqb url (endpoint_url "annotations" accession) then
    Ok {| status_code := 200;
          json := Ok (document_json accession (map annotation_json anns)) |}
  else if String.eqb url (endpoint_url "interface_residues" accession) then
    Ok {| status_code := 200;
          json := Ok (document_json accession (map interaction_json ints)) |}
  else if String.eqb url (endpoint_url "ligand_sites" accession) then
    Ok {| status_code := 200;
          json := Ok (document_json accession (map ligand_json ligs)) |}
  else Ok {| status_code := 404; json := Err JSONDecodeError |}.

(** What Step 4 reads of a record: its [accession], and its residues only
    when the provider is on the allowlist. *)
Definition annotation_read (allow : list string) (o : value)
    (r : Annotation) : Prop :=
  exists m,
    o = VDict m /\
    dict_get "accession" m = Some (VStr (providerAccession r)) /\
    (mem (providerAccession r) allow = true ->
     exists rs,
       dict_get "residues" m = Some (VList rs) /\
       Forall2 residue_obj rs (annotationResidues r)).

(** A record object whose [name] is not the string [partner]. *)
Definition other_partner (partner : string) (o : value) : Prop :=
  exists m n, o = VDict m /\ dict_get "name" m = Some n /\ n <> VStr partner.

(** The network answers the request for an endpoint of the accession
    with status 200 and a document that holds the records. *)
Definition serves {R} (net : string -> result Response)
    (endpoint accession : string) (rep : value -> R -> Prop)
    (recs : list R) : Prop :=
  exists r doc items,
    net (endpoint_url endpoint accession) = Ok r /\
    status_code r = 200 /\
    json r = Ok doc /\
    document doc accession items /\
    Forall2 rep items recs.

(** The helpers and [requests] are bound, as after Steps 1 and 3. *)
Definition helpers_bound (scope : string -> option binding) : Prop :=
  scope "requests" <> None /\
  scope "get_data" <> None /\
  scope "parse_data" <> None.

(** Two names are bound to one and the same object. *)
Definition bound_alike (x y : string) (e : env) : Prop :=
  exists v, e !! x = Some v /\ e !! y = Some v.

(** On every kernel that satisfies [R], two computations do the same and
    leave a kernel that satisfies [R]. *)
Definition same_on {A} (R : env -> Prop) (m1 m2 : M A) : Prop :=
  forall e, R e -> m1 e = m2 e /\ R (snd (m1 e)).

(** The kernel binds the names read by the older copy to the objects
    bound to the names read by [example.ipynb]. *)
Definition older_names_bound (e : env) : Prop :=
  bound_alike "ACCESSION" "accession" e /\
  bound_alike "all_predicted_ligand_binding_residues"
    "all_ligand_binding_residues" e.

(** What the notebook computes from the records of the three endpoints. *)
Definition predicted_of (anns : list Annotation) : list Z :=
  extractPredictedBindingResidues anns ["p2rank"; "cansar"].

Definition interface_of (anns : list Annotation) (ints : list Interaction)
  : list Z :=
  extractInterfaceResidues ints "Hirudin variant-1" (predicted_of anns).

Definition ligands_of (anns : list Annotation) (ints : list Interaction)
    (ligs : list Ligand) : list string :=
  extractLigandsOverlapping ligs (interface_of anns ints).

(** A cell rebinds no name outside [xs], whether or not it raises. *)
Definition touches_only (xs : list string) (c : IO unit) : Prop :=
  forall e x, ~ In x xs -> snd (fst (c e)) !! x = e !! x.

(** Every name that a code cell of either notebook binds. *)
Definition notebook_names : list string :=
  ["requests"; "get_data"; "parse_data";
   "ACCESSION"; "ANNOTATIONS_URL"; "INTERACTIONS_URL"; "LIGANDS_URL";
   "annotations_data"; "interactions_data"; "ligands_data";
   "interaction_partner_names"] ++ cell_names.

(** Kernels and networks for the properties of the other cells. *)
Definition annotations_with_unread : list Annotation :=
  [ {| providerAccession := "p2rank"; annotationResidues := [1; 2] |};
    {| providerAccession := "14-3-3-pred"; annotationResidues := [9] |};
    {| providerAccession := "cansar"; annotationResidues := [3] |} ].

(** The record of the provider that is not allowlisted has no list under
    [residues]. *)
Definition kernel_with_unread_record : env :=
  <["ACCESSION" := VStr "P00734"]>
  (<["annotations_data" :=
       document_json "P00734"
         [ record_json "accession" "p2rank" [1; 2];
           VDict [("accession", VStr "14-3-3-pred"); ("residues", VNone)];
           record_json "accession" "cansar" [3] ]]> ∅).

(** The second record is from p2rank and has no [residues] at all. *)
Definition kernel_with_broken_record : env :=
  <["ACCESSION" := VStr "P00734"]>
  (<["annotations_data" :=
       document_json "P00734"
         ([ record_json "accession" "p2rank" [1; 2] ] ++
          VDict [("accession", VStr "p2rank")] ::
          [ record_json "accession" "cansar" [3] ])]> ∅).

(** A kernel of the older copy: [accession] is bound, the candidate
    variable is not, and no partner is Hirudin variant-1. *)
Definition older_kernel_without_hirudin : env :=
  <["accession" := VStr "P00734"]>
  (<["interactions_data" :=
       document_json "P00734"
         [ record_json "name" "Prothrombin" [1; 2];
           VDict [("name", VNone)] ]]> ∅).

(** A kernel in which the names read by the older copy are bound. *)
Definition demo_kernel_older_names : env :=
  <["accession" := VStr "P00734"]>
  (<["all_ligand_binding_residues" := VList (map VInt [1; 2; 3; 3; 4])]>
     demo_kernel_with_predicted).


(** The network that serves the small data set. *)
Definition demo_network : string -> result Response :=
  serving "P00734" demo_annotations demo_interactions demo_ligands.

(** ** Running the monad *)

Section Run.
Context {A B : Type}.

Lemma run_bind (m : M A) (f : A -> M B) e a e' :
  m e = (Ok a, e') -> bind m f e = f a e'.
Proof. intros H. unfold bind. now rewrite H. Qed.

Lemma run_bind_err (m : M A) (f : A -> M B) e x e' :
  m e = (Err x, e') -> bind m f e = (Err x, e').
Proof. intros H. unfold bind. now rewrite H. Qed.
End Run.

Lemma bind_assoc {A B C} (m : M A) (f : A -> M B) (g : B -> M C) e :
  bind (bind m f) g e = bind m (fun a => bind (f a) g) e.
Proof. unfold bind. destruct (m e) as [[a|x] e']; reflexivity. Qed.

Lemma run_name e x v : e !! x = Some v -> name x e = (Ok v, e).
Proof. intros H. unfold name. now rewrite H. Qed.

Lemma run_name_unbound e x : e !! x = None -> name x e = (Err (NameError x), e).
Proof. intros H. unfold name. now rewrite H. Qed.

Lemma fresh_list_run (e : env) x :
  e !! "list" = None -> fresh_list x e = (Ok tt, <[x := VList []]> e).
Proof. intros H. unfold fresh_list, bind, builtin. now rewrite H. Qed.

Lemma fresh_list_shadowed (e : env) x v :
  e !! "list" = Some v -> fresh_list x e = (Err TypeError, e).
Proof. intros H. unfold fresh_list, bind, builtin. now rewrite H. Qed.

Lemma contains_allow p allow :
  contains (VList (map VStr allow)) (VStr p) = Ok (mem p allow).
Proof.
  unfold contains, mem. f_equal.
  induction allow as [|a allow IH]; [reflexivity|].
  cbn [map existsb]. now rewrite IH.
Qed.

Lemma rmap_startIndex xs zs :
  Forall2 residue_obj xs zs ->
  rmap (fun x => getitem x (VStr "startIndex")) xs = Ok (map VInt zs).
Proof.
  induction 1 as [|x z xs zs (m & -> & Hm) _ IH]; simpl; [reflexivity|].
  rewrite Hm. simpl. now rewrite IH.
Qed.

(** One line of a cell: a name that is bound, or an expression or an
    assignment that cannot fail. *)
Ltac run_name_step :=
  erewrite run_bind by (apply run_name; first [eassumption | simplify_map_eq; reflexivity]).
Ltac run_pure_step := erewrite run_bind by reflexivity.
Ltac run_list_step :=
  erewrite run_bind
    by (apply fresh_list_run; first [eassumption | now simplify_map_eq]).
Ltac run_step :=
  cbv beta iota; repeat rewrite bind_assoc;
  first [run_name_step | run_list_step | run_pure_step].

Lemma predicted_body_run allow o r (e : env) acc0 :
  annotation_obj o r ->
  e !! "provider_data" = Some o ->
  e !! "all_predicted_ligand_binding_residues" = Some (VList acc0) ->
  exists e',
    predicted_body allow e = (Ok tt, e') /\
    e' !! "all_predicted_ligand_binding_residues" =
      Some (VList (acc0 ++
        if mem (providerAccession r) allow
        then map VInt (annotationResidues r) else [])).
Proof.
  intros (m & rs & -> & Hid & Hrs & Hres) Hpd Hout.
  unfold predicted_body.
  run_step. simpl getitem. rewrite Hid.
  run_step. rewrite contains_allow. run_step.
  destruct (mem (providerAccession r) allow).
  - run_step. simpl getitem. rewrite Hrs.
    do 2 run_step. rewrite (rmap_startIndex _ _ Hres).
    do 2 run_step. unfold extend. do 3 run_step.
    eexists. split; [reflexivity|]. now simplify_map_eq.
  - eexists. split; [reflexivity|]. now rewrite app_nil_r.
Qed.

Lemma predicted_loop allow items recs :
  Forall2 annotation_obj items recs ->
  forall (e : env) acc0,
    e !! "all_predicted_ligand_binding_residues" = Some (VList acc0) ->
    exists e',
      for_each "provider_data" items (predicted_body allow) e = (Ok tt, e') /\
      e' !! "all_predicted_ligand_binding_residues" =
        Some (VList (acc0 ++
          map VInt (extractPredictedBindingResidues recs allow))).
Proof.
  induction 1 as [|o r items recs Ho _ IH]; intros e acc0 Hout.
  - exists e. split; [reflexivity|]. now rewrite app_nil_r.
  - cbn [for_each]. run_step.
    destruct (predicted_body_run allow o r (<["provider_data" := o]> e) acc0 Ho)
      as (e1 & Hrun & Hout1); [now simplify_map_eq..|].
    erewrite run_bind by exact Hrun.
    destruct (IH e1 _ Hout1) as (e2 & Hrun2 & Hout2).
    exists e2. split; [exact Hrun2|]. rewrite Hout2. do 2 f_equal.
    rewrite <- app_assoc. f_equal.
    unfold extractPredictedBindingResidues. cbn [List.filter].
    destruct (mem (providerAccession r) allow); [|reflexivity].
    cbn [flat_map]. now rewrite map_app.
Qed.

Lemma data_items_run (e : env) doc_var acc_var doc acc items :
  e !! doc_var = Some doc ->
  e !! acc_var = Some (VStr acc) ->
  document doc acc items ->
  data_items doc_var acc_var e = (Ok items, e).
Proof.
  intros Hd Ha (m & inner & -> & Hacc & Hdata).
  unfold data_items. do 2 run_step.
  simpl getitem. rewrite Hacc. run_step.
  simpl getitem. rewrite Hdata. run_step. reflexivity.
Qed.

Lemma contains_ints z cand :
  contains (VList (map VInt cand)) (VInt z) = Ok (memZ z cand).
Proof.
  unfold contains, memZ. f_equal.
  induction cand as [|c cand IH]; [reflexivity|].
  cbn [map existsb]. now rewrite IH.
Qed.

Lemma interacting_run cand_var cand xs zs (e : env) :
  Forall2 residue_obj xs zs ->
  e !! cand_var = Some (VList (map VInt cand)) ->
  interacting cand_var xs e =
    (Ok (map VInt (List.filter (fun z => memZ z cand) zs)), e).
Proof.
  intros Hres Hc.
  induction Hres as [|x z xs zs (m & -> & Hm) _ IH]; [reflexivity|].
  cbn [interacting List.filter]. simpl getitem. rewrite Hm.
  do 2 run_step. rewrite contains_ints. run_step.
  destruct (memZ z cand).
  - run_step. erewrite run_bind by exact IH. reflexivity.
  - exact IH.
Qed.

Lemma interface_body_run partner cand o r (e : env) acc0 :
  interaction_obj o r ->
  e !! "item" = Some o ->
  e !! PRED = Some (VList (map VInt cand)) ->
  e !! IFACE = Some (VList acc0) ->
  exists e',
    interface_body PRED partner e = (Ok tt, e') /\
    e' !! PRED = Some (VList (map VInt cand)) /\
    e' !! IFACE =
      Some (VList (acc0 ++
        if String.eqb (partnerName r) partner
        then map VInt (List.filter (fun z => memZ z cand) (interfaceResidues r))
        else [])).
Proof.
  intros (m & rs & -> & Hid & Hrs & Hres) Hit Hc Hout.
  unfold interface_body. run_step. simpl getitem. rewrite Hid. run_step.
  cbn [py_eq]. destruct (String.eqb (partnerName r) partner).
  - run_step. simpl getitem. rewrite Hrs. do 2 run_step.
    erewrite run_bind by (eapply interacting_run; eassumption).
    run_step. unfold extend. do 3 run_step.
    eexists. split; [reflexivity|]. now simplify_map_eq.
  - eexists. split; [reflexivity|]. now rewrite app_nil_r.
Qed.

Lemma interface_loop partner cand items recs :
  Forall2 interaction_obj items recs ->
  forall (e : env) acc0,
    e !! PRED = Some (VList (map VInt cand)) ->
    e !! IFACE = Some (VList acc0) ->
    exists e',
      for_each "item" items (interface_body PRED partner) e = (Ok tt, e') /\
      e' !! IFACE =
        Some (VList (acc0 ++
          map VInt (extractInterfaceResidues recs partner cand))).
Proof.
  induction 1 as [|o r items recs Ho _ IH]; intros e acc0 Hc Hout.
  - exists e. split; [reflexivity|]. now rewrite app_nil_r.
  - cbn [for_each]. run_step.
    destruct (interface_body_run partner cand o r (<["item" := o]> e) acc0 Ho)
      as (e1 & Hrun & Hc1 & Hout1); [now simplify_map_eq..|].
    erewrite run_bind by exact Hrun.
    destruct (IH e1 _ Hc1 Hout1) as (e2 & Hrun2 & Hout2).
    exists e2. split; [exact Hrun2|]. rewrite Hout2. do 2 f_equal.
    rewrite <- app_assoc. f_equal.
    unfold extractInterfaceResidues. cbn [List.filter].
    destruct (String.eqb (partnerName r) partner); [|reflexivity].
    cbn [flat_map]. now rewrite map_app.
Qed.

Lemma ligand_probe_loop target o r xs zs :
  ligand_obj o r ->
  Forall2 residue_obj xs zs ->
  forall (e : env) acc0,
    e !! "ligand" = Some o ->
    e !! IFACE = Some (VList (map VInt target)) ->
    e !! LIGS = Some (VList acc0) ->
    exists e',
      for_break "residue" xs ligand_probe e = (Ok tt, e') /\
      e' !! IFACE = Some (VList (map VInt target)) /\
      e' !! LIGS =
        Some (VList (acc0 ++
          if existsb (fun z => memZ z target) zs
          then [VStr (ligandAccession r)] else [])).
Proof.
  intros (m & rs & -> & Hid & Hrs & _).
  induction 1 as [|x z xs zs (mx & -> & Hm) _ IH]; intros e acc0 Hlg Hc Hout.
  - exists e. split; [reflexivity|]. now rewrite app_nil_r.
  - cbn [for_break existsb]. run_step. unfold ligand_probe at 1.
    run_step. simpl getitem. rewrite Hm. do 2 run_step.
    rewrite contains_ints. run_step.
    destruct (memZ z target); cbn [orb].
    + unfold append. run_step. run_step. simpl getitem. rewrite Hid.
      do 3 run_step. cbv beta iota.
      eexists. split; [reflexivity|]. now simplify_map_eq.
    + run_step. cbv beta iota.
      apply IH; now simplify_map_eq.
Qed.

Lemma ligand_loop target items recs :
  Forall2 ligand_obj items recs ->
  forall (e : env) acc0,
    e !! IFACE = Some (VList (map VInt target)) ->
    e !! LIGS = Some (VList acc0) ->
    exists e',
      for_each "ligand" items ligand_body e = (Ok tt, e') /\
      e' !! LIGS =
        Some (VList (acc0 ++
          map VStr (extractLigandsOverlapping recs target))).
Proof.
  induction 1 as [|o r items recs Ho _ IH]; intros e acc0 Hc Hout.
  - exists e. split; [reflexivity|]. now rewrite app_nil_r.
  - cbn [for_each]. run_step. unfold ligand_body at 1.
    pose proof Ho as (m & rs & -> & Hid & Hrs & Hres).
    run_step. simpl getitem. rewrite Hrs. do 2 run_step.
    destruct (ligand_probe_loop target _ r rs _ Ho Hres
                (<["ligand" := VDict m]> e) acc0)
      as (e1 & Hrun & Hc1 & Hout1); [now simplify_map_eq..|].
    erewrite run_bind by exact Hrun.
    destruct (IH e1 _ Hc1 Hout1) as (e2 & Hrun2 & Hout2).
    exists e2. split; [exact Hrun2|]. rewrite Hout2. do 2 f_equal.
    rewrite <- app_assoc. f_equal.
    unfold extractLigandsOverlapping. cbn [List.filter]. unfold qualifies at 2.
    destruct (existsb _ (ligandResidues r)); reflexivity.
Qed.

(** ** Facts about the operations as specified *)

Lemma memZ_In z l : memZ z l = true <-> In z l.
Proof.
  unfold memZ. rewrite existsb_exists. split.
  - intros (y & Hy & Heq). apply Z.eqb_eq in Heq. now subst.
  - intros H. exists z. split; [exact H | apply Z.eqb_refl].
Qed.

Lemma mem_In x l : mem x l = true <-> In x l.
Proof.
  unfold mem. rewrite existsb_exists. split.
  - intros (y & Hy & Heq). apply String.eqb_eq in Heq. now subst.
  - intros H. exists x. split; [exact H | apply String.eqb_refl].
Qed.

Lemma qualifies_iff target r :
  qualifies target r = true <->
  exists z, In z (ligandResidues r) /\ In z target.
Proof.
  unfold qualifies. rewrite existsb_exists.
  split; intros (z & Hz & Ht); exists z; (split; [exact Hz|]);
    now apply memZ_In.
Qed.

Lemma extractInterfaceResidues_In recs partner cand z :
  In z (extractInterfaceResidues recs partner cand) <->
  exists r, In r recs /\ partnerName r = partner /\
            In z (interfaceResidues r) /\ In z cand.
Proof.
  unfold extractInterfaceResidues. rewrite in_flat_map. split.
  - intros (r & Hr & Hz). apply filter_In in Hr as [Hr Hn].
    apply filter_In in Hz as [Hz Hc].
    exists r. repeat split; auto.
    + now apply String.eqb_eq.
    + now apply memZ_In.
  - intros (r & Hr & Hn & Hz & Hc). exists r. split.
    + apply filter_In. split; [exact Hr | now apply String.eqb_eq].
    + apply filter_In. split; [exact Hz | now apply memZ_In].
Qed.

Lemma filter_none {A} (f : A -> bool) l :
  (forall x, In x l -> f x = false) -> List.filter f l = [].
Proof.
  induction l as [|a l IH]; intros H; [reflexivity|].
  cbn [List.filter]. rewrite (H a) by now left.
  apply IH. intros x Hx. apply H. now right.
Qed.

(** ** The three stages on well-formed documents *)

Lemma predicted_cell_run (e : env) recs allow :
  e !! "list" = None ->
  holds annotation_obj "annotations_data" e recs ->
  exists e',
    predicted_cell allow e = (Ok tt, e') /\
    e' !! PRED =
      Some (VList (map VInt (extractPredictedBindingResidues recs allow))).
Proof.
  intros Hl (doc & acc & items & Hdoc & Hacc & Hshape & Hrecs).
  unfold predicted_cell. run_step.
  erewrite run_bind
    by (eapply data_items_run; [| |exact Hshape]; now simplify_map_eq).
  destruct (predicted_loop allow items recs Hrecs
              (<[PRED := VList []]> e) []) as (e' & Hrun & Hout);
    [now simplify_map_eq|].
  exists e'. split; [exact Hrun | exact Hout].
Qed.

Lemma interface_cell_run (e : env) recs partner cand :
  e !! "list" = None ->
  holds interaction_obj "interactions_data" e recs ->
  e !! PRED = Some (VList (map VInt cand)) ->
  exists e',
    interface_cell "ACCESSION" PRED partner e = (Ok tt, e') /\
    e' !! IFACE =
      Some (VList (map VInt (extractInterfaceResidues recs partner cand))).
Proof.
  intros Hl (doc & acc & items & Hdoc & Hacc & Hshape & Hrecs) Hcand.
  unfold interface_cell. run_step.
  erewrite run_bind
    by (eapply data_items_run; [| |exact Hshape]; now simplify_map_eq).
  destruct (interface_loop partner cand items recs Hrecs
              (<[IFACE := VList []]> e) []) as (e' & Hrun & Hout);
    [now simplify_map_eq..|].
  exists e'. split; [exact Hrun | exact Hout].
Qed.

Lemma ligand_cell_run (e : env) recs target :
  e !! "list" = None ->
  holds ligand_obj "ligands_data" e recs ->
  e !! IFACE = Some (VList (map VInt target)) ->
  exists e',
    ligand_cell "ACCESSION" e = (Ok tt, e') /\
    e' !! LIGS =
      Some (VList (map VStr (extractLigandsOverlapping recs target))).
Proof.
  intros Hl (doc & acc & items & Hdoc & Hacc & Hshape & Hrecs) Htarget.
  unfold ligand_cell. run_step.
  erewrite run_bind
    by (eapply data_items_run; [| |exact Hshape]; now simplify_map_eq).
  destruct (ligand_loop target items recs Hrecs
              (<[LIGS := VList []]> e) []) as (e' & Hrun & Hout);
    [now simplify_map_eq..|].
  exists e'. split; [exact Hrun | exact Hout].
Qed.

(** C2.  Run on a kernel that holds the annotation records [recs] and
    leaves the builtin [list] unshadowed, the Step 4 cell ends without an
    exception and leaves in [all_predicted_ligand_binding_residues] the
    residues of the records whose provider is on the allowlist,
    concatenated in encounter order with duplicates kept, the other
    records giving nothing; when no provider is on the allowlist the list
    is empty and nothing is raised. *)
Theorem predicted_cell_correct (e : env) (recs : list Annotation)
    (allow : list string) :
  e !! "list" = None ->
  holds annotation_obj "annotations_data" e recs ->
  fst (predicted_cell allow e) = Ok tt /\
  snd (predicted_cell allow e) !! PRED =
    Some (VList (map VInt (extractPredictedBindingResidues recs allow))) /\
  extractPredictedBindingResidues recs allow =
    concat (map (fun r => if mem (providerAccession r) allow
                          then annotationResidues r else []) recs) /\
  ((forall r, In r recs -> ~ In (providerAccession r) allow) ->
   snd (predicted_cell allow e) !! PRED = Some (VList [])).
Proof.
  intros Hl Hholds.
  destruct (predicted_cell_run e recs allow Hl Hholds) as (e' & Hrun & Hout).
  rewrite Hrun. cbn [fst snd]. rewrite Hout.
  split; [reflexivity|]. split; [reflexivity|]. split.
  - unfold extractPredictedBindingResidues.
    clear. induction recs as [|r recs IH]; [reflexivity|].
    cbn [List.filter map concat].
    destruct (mem (providerAccession r) allow); cbn [flat_map]; now rewrite IH.
  - intros Hnone. unfold extractPredictedBindingResidues.
    rewrite filter_none; [reflexivity|].
    intros r Hr. specialize (Hnone r Hr).
    destruct (mem (providerAccession r) allow) eqn:Hm; [|reflexivity].
    now apply mem_In in Hm.
Qed.

(** C3.  Run on a kernel that holds the interaction records [recs] and the
    candidate list [cand] and leaves the builtin [list] unshadowed, the
    Step 6 cell ends without an exception; its output is, in source order,
    the candidate residues of the records whose name is exactly [partner];
    so every element is a candidate and comes from such a record, and the
    output is empty when no record bears that name, whatever the
    candidates. *)
Theorem interface_cell_correct (e : env) (recs : list Interaction)
    (partner : string) (cand : list Z) :
  e !! "list" = None ->
  holds interaction_obj "interactions_data" e recs ->
  e !! PRED = Some (VList (map VInt cand)) ->
  fst (interface_cell "ACCESSION" PRED partner e) = Ok tt /\
  snd (interface_cell "ACCESSION" PRED partner e) !! IFACE =
    Some (VList (map VInt (extractInterfaceResidues recs partner cand))) /\
  (forall z, In z (extractInterfaceResidues recs partner cand) ->
     In z cand /\
     exists r, In r recs /\ partnerName r = partner /\
               In z (interfaceResidues r)) /\
  ((forall r, In r recs -> partnerName r <> partner) ->
   snd (interface_cell "ACCESSION" PRED partner e) !! IFACE = Some (VList [])).
Proof.
  intros Hl Hholds Hcand.
  destruct (interface_cell_run e recs partner cand Hl Hholds Hcand)
    as (e' & Hrun & Hout).
  rewrite Hrun. cbn [fst snd]. rewrite Hout.
  split; [reflexivity|]. split; [reflexivity|]. split.
  - intros z Hz. apply extractInterfaceResidues_In in Hz
      as (r & Hr & Hn & Hz & Hc).
    split; [exact Hc|]. exists r. auto.
  - intros Hnone. unfold extractInterfaceResidues.
    rewrite filter_none; [reflexivity|].
    intros r Hr. apply String.eqb_neq. now apply Hnone.
Qed.

(** C1.  Run on a kernel that holds the ligand records [recs] and the
    target residues [target] and leaves the builtin [list] unshadowed, the
    Step 7 cell ends without an exception and leaves in [ligand_list] the
    accession of each record that has a residue in [target], once per such
    record and in record order, and nothing for the other records; the
    length of the list is the number of qualifying records, 279 when there
    are 279 of them. *)
Theorem ligand_cell_correct (e : env) (recs : list Ligand) (target : list Z) :
  e !! "list" = None ->
  holds ligand_obj "ligands_data" e recs ->
  e !! IFACE = Some (VList (map VInt target)) ->
  fst (ligand_cell "ACCESSION" e) = Ok tt /\
  snd (ligand_cell "ACCESSION" e) !! LIGS =
    Some (VList (map VStr (extractLigandsOverlapping recs target))) /\
  extractLigandsOverlapping recs target =
    concat (map (fun r => if qualifies target r
                          then [ligandAccession r] else []) recs) /\
  (forall r, qualifies target r = true <->
             exists z, In z (ligandResidues r) /\ In z target) /\
  length (extractLigandsOverlapping recs target) =
    length (List.filter (qualifies target) recs) /\
  (length (List.filter (qualifies target) recs) = 279%nat ->
   length (extractLigandsOverlapping recs target) = 279%nat).
Proof.
  intros Hl Hholds Htarget.
  destruct (ligand_cell_run e recs target Hl Hholds Htarget)
    as (e' & Hrun & Hout).
  rewrite Hrun. cbn [fst snd]. rewrite Hout.
  assert (Hlen : length (extractLigandsOverlapping recs target) =
                 length (List.filter (qualifies target) recs))
    by (unfold extractLigandsOverlapping; apply length_map).
  repeat split; try reflexivity; try apply qualifies_iff; try exact Hlen.
  - unfold extractLigandsOverlapping.
    clear. induction recs as [|r recs IH]; [reflexivity|].
    cbn [List.filter map concat].
    destruct (qualifies target r); cbn [map app]; now rewrite IH.
  - intros H. now rewrite Hlen.
Qed.

(** ** What a cell reads and what it rebinds *)

Lemma agree_incl xs ys e1 e2 : incl ys xs -> agree xs e1 e2 -> agree ys e1 e2.
Proof. intros Hi Ha x Hx. apply Ha, Hi, Hx. Qed.

Lemma agree_insert xs x v e1 e2 :
  agree xs e1 e2 -> agree (x :: xs) (<[x := v]> e1) (<[x := v]> e2).
Proof.
  intros Ha y Hy. destruct (decide (x = y)) as [->|Hne].
  - now rewrite !lookup_insert_eq.
  - rewrite !lookup_insert_ne by exact Hne.
    destruct Hy as [Hy|Hy]; [contradiction|]. now apply Ha.
Qed.

Section Sim.
Context {A B : Type}.

Lemma sim_pre (P P' Q : list string) (m : M A) :
  incl P' P -> sim P' Q m -> sim P Q m.
Proof. intros Hi Hm e1 e2 Ha. apply Hm. eapply agree_incl; eassumption. Qed.

Lemma sim_post (P Q Q' : list string) (m : M A) :
  incl Q' Q -> sim P Q m -> sim P Q' m.
Proof.
  intros Hi Hm e1 e2 Ha. destruct (Hm e1 e2 Ha) as [Hr Hq].
  split; [exact Hr|]. intros Hok. eapply agree_incl; eauto.
Qed.

Lemma sim_ret (P : list string) (a : A) : sim P P (ret a).
Proof. intros e1 e2 Ha. split; [reflexivity | intros _; exact Ha]. Qed.

Lemma sim_lift (P : list string) (r : result A) : sim P P (lift r).
Proof. intros e1 e2 Ha. split; [reflexivity | intros _; exact Ha]. Qed.

Lemma sim_bind (P Q R : list string) (m : M A) (k : A -> M B) :
  sim P Q m -> (forall a, sim Q R (k a)) -> sim P R (bind m k).
Proof.
  intros Hm Hk e1 e2 Ha. destruct (Hm e1 e2 Ha) as [Hr Hq].
  unfold bind.
  destruct (m e1) as [[a1|x1] e1'], (m e2) as [[a2|x2] e2'];
    cbn [fst snd] in *; try discriminate.
  - injection Hr as ->. apply Hk, Hq. reflexivity.
  - injection Hr as ->. split; [reflexivity | discriminate].
Qed.
End Sim.

Lemma sim_name P x : In x P -> sim P P (name x).
Proof.
  intros Hx e1 e2 Ha. unfold name. rewrite <- (Ha x Hx).
  destruct (e1 !! x); (split; [reflexivity | intros _; exact Ha]).
Qed.

Lemma sim_assign P x v : sim P (x :: P) (assign x v).
Proof.
  intros e1 e2 Ha. split; [reflexivity|]. intros _. now apply agree_insert.
Qed.

Lemma sim_fresh_list P x : In "list" P -> sim P (x :: P) (fresh_list x).
Proof.
  intros Hl e1 e2 Ha. unfold fresh_list, bind, builtin.
  rewrite <- (Ha "list" Hl). destruct (e1 !! "list").
  - split; [reflexivity | discriminate].
  - split; [reflexivity|]. intros _. now apply agree_insert.
Qed.

Lemma sim_for_each P x items body :
  sim (x :: P) P body -> sim P P (for_each x items body).
Proof.
  intros Hb. induction items as [|v items IH]; cbn [for_each].
  - apply sim_ret.
  - eapply sim_bind; [apply sim_assign|]. intros _.
    eapply sim_bind; [exact Hb|]. intros _. exact IH.
Qed.

Lemma sim_for_break P x items body :
  sim (x :: P) P body -> sim P P (for_break x items body).
Proof.
  intros Hb. induction items as [|v items IH]; cbn [for_break].
  - apply sim_ret.
  - eapply sim_bind; [apply sim_assign|]. intros _.
    eapply sim_bind; [exact Hb|]. intros [|]; [apply sim_ret | exact IH].
Qed.

(** Side conditions on lists of names. *)
Ltac names := cbn in *; intuition (subst; auto).
Ltac incl_names := intros ? ?; names.

Lemma sim_extend P xs ys :
  In xs P -> In ys P -> sim P P (extend xs ys).
Proof.
  intros Hx Hy. unfold extend.
  eapply sim_bind; [now apply sim_name|].
  intros [| | | |l|]; try apply sim_lift.
  eapply sim_bind; [now apply sim_name|]. intros a.
  eapply sim_bind; [apply sim_lift|]. intros more.
  eapply sim_post; [|apply sim_assign]. incl_names.
Qed.

Lemma sim_append P xs (arg : M value) :
  In xs P -> sim P P arg -> sim P P (append xs arg).
Proof.
  intros Hx Harg. unfold append.
  eapply sim_bind; [now apply sim_name|].
  intros [| | | |l|]; try apply sim_lift.
  eapply sim_bind; [exact Harg|]. intros a.
  eapply sim_post; [|apply sim_assign]. incl_names.
Qed.

Lemma sim_data_items P doc_var acc_var :
  In doc_var P -> In acc_var P -> sim P P (data_items doc_var acc_var).
Proof.
  intros Hd Ha. unfold data_items.
  eapply sim_bind; [now apply sim_name|]. intros d.
  eapply sim_bind; [now apply sim_name|]. intros k.
  eapply sim_bind; [apply sim_lift|]. intros a.
  eapply sim_bind; [apply sim_lift|]. intros b. apply sim_lift.
Qed.

Lemma sim_interacting P cand xs : In cand P -> sim P P (interacting cand xs).
Proof.
  intros Hc. induction xs as [|x xs IH]; cbn [interacting].
  - apply sim_ret.
  - eapply sim_bind; [apply sim_lift|]. intros i.
    eapply sim_bind; [now apply sim_name|]. intros c.
    eapply sim_bind; [apply sim_lift|]. intros [|]; [|exact IH].
    eapply sim_bind; [apply sim_lift|]. intros v.
    eapply sim_bind; [exact IH|]. intros vs. apply sim_ret.
Qed.

Lemma sim_predicted_cell P allow :
  In "list" P -> In "annotations_data" P -> In "ACCESSION" P ->
  sim P (PRED :: P) (predicted_cell allow).
Proof.
  intros Hl Hd Ha. unfold predicted_cell.
  eapply sim_bind; [now apply sim_fresh_list|]. intros _.
  eapply sim_bind; [apply sim_data_items; now right|]. intros items.
  apply sim_for_each. unfold predicted_body.
  eapply sim_bind; [apply sim_name; names|]. intros pd.
  eapply sim_bind; [apply sim_lift|]. intros acc.
  eapply sim_bind; [apply sim_lift|]. intros [|].
  - eapply sim_bind; [apply sim_name; names|]. intros pd'.
    eapply sim_bind; [apply sim_lift|]. intros rs.
    eapply sim_bind; [apply sim_lift|]. intros xs.
    eapply sim_bind; [apply sim_lift|]. intros residues.
    eapply sim_bind; [apply sim_assign|]. intros _.
    eapply sim_post; [|apply sim_extend; names]. incl_names.
  - eapply sim_post; [|apply sim_ret]. incl_names.
Qed.

Lemma sim_interface_cell P acc_var cand_var partner :
  In "list" P -> In "interactions_data" P -> In acc_var P -> In cand_var P ->
  sim P (IFACE :: P) (interface_cell acc_var cand_var partner).
Proof.
  intros Hl Hd Ha Hc. unfold interface_cell.
  eapply sim_bind; [now apply sim_fresh_list|]. intros _.
  eapply sim_bind; [apply sim_data_items; now right|]. intros items.
  apply sim_for_each. unfold interface_body.
  eapply sim_bind; [apply sim_name; names|]. intros it.
  eapply sim_bind; [apply sim_lift|]. intros n.
  destruct (py_eq n (VStr partner)).
  - eapply sim_bind; [apply sim_name; names|]. intros it'.
    eapply sim_bind; [apply sim_lift|]. intros rs.
    eapply sim_bind; [apply sim_lift|]. intros xs.
    eapply sim_bind; [apply sim_interacting; names|]. intros found.
    eapply sim_bind; [apply sim_assign|]. intros _.
    eapply sim_post; [|apply sim_extend; names]. incl_names.
  - eapply sim_post; [|apply sim_ret]. incl_names.
Qed.

Lemma sim_ligand_cell P acc_var :
  In "list" P -> In "ligands_data" P -> In acc_var P -> In IFACE P ->
  sim P (LIGS :: P) (ligand_cell acc_var).
Proof.
  intros Hl Hd Ha Hc. unfold ligand_cell.
  eapply sim_bind; [now apply sim_fresh_list|]. intros _.
  eapply sim_bind; [apply sim_data_items; now right|]. intros items.
  apply sim_for_each. unfold ligand_body.
  eapply sim_bind; [apply sim_name; names|]. intros lg.
  eapply sim_bind; [apply sim_lift|]. intros rs.
  eapply sim_bind; [apply sim_lift|]. intros xs.
  eapply sim_post; [|apply sim_for_break].
  { incl_names. }
  unfold ligand_probe.
  eapply sim_bind; [apply sim_name; names|]. intros r.
  eapply sim_bind; [apply sim_lift|]. intros i.
  eapply sim_bind; [apply sim_name; names|]. intros c.
  eapply sim_bind; [apply sim_lift|]. intros [|].
  - eapply sim_bind.
    + apply sim_append; [names|].
      eapply sim_bind; [apply sim_name; names|]. intros lg'. apply sim_lift.
    + intros _. eapply sim_post; [|apply sim_ret]. incl_names.
  - eapply sim_post; [|apply sim_ret]. incl_names.
Qed.

Section WritesOnly.
Context {A B : Type}.

Lemma wo_ret xs (a : A) : writes_only xs (ret a).
Proof. intros e x _. reflexivity. Qed.

Lemma wo_lift xs (r : result A) : writes_only xs (lift r).
Proof. intros e x _. reflexivity. Qed.

Lemma wo_bind xs (m : M A) (k : A -> M B) :
  writes_only xs m -> (forall a, writes_only xs (k a)) ->
  writes_only xs (bind m k).
Proof.
  intros Hm Hk e x Hx. specialize (Hm e x Hx). unfold bind.
  destruct (m e) as [[a|err] e']; cbn [snd] in *; [|exact Hm].
  rewrite (Hk a e' x Hx). exact Hm.
Qed.
End WritesOnly.

Lemma wo_name xs x : writes_only xs (name x).
Proof. intros e y _. unfold name. now destruct (e !! x). Qed.

Lemma wo_assign xs x v : In x xs -> writes_only xs (assign x v).
Proof.
  intros Hx e y Hy. unfold assign. cbn [snd].
  apply lookup_insert_ne. intros ->. contradiction.
Qed.

Lemma wo_fresh_list xs x : In x xs -> writes_only xs (fresh_list x).
Proof.
  intros Hx e y Hy. unfold fresh_list, bind, builtin.
  destruct (e !! "list"); [reflexivity|]. cbn [assign snd].
  apply lookup_insert_ne. intros ->. contradiction.
Qed.

Lemma wo_for_each xs x items body :
  In x xs -> writes_only xs body -> writes_only xs (for_each x items body).
Proof.
  intros Hx Hb. induction items as [|v items IH]; cbn [for_each].
  - apply wo_ret.
  - apply wo_bind; [now apply wo_assign|]. intros _.
    apply wo_bind; [exact Hb|]. intros _. exact IH.
Qed.

Lemma wo_for_break xs x items body :
  In x xs -> writes_only xs body -> writes_only xs (for_break x items body).
Proof.
  intros Hx Hb. induction items as [|v items IH]; cbn [for_break].
  - apply wo_ret.
  - apply wo_bind; [now apply wo_assign|]. intros _.
    apply wo_bind; [exact Hb|]. intros [|]; [apply wo_ret | exact IH].
Qed.

Lemma wo_extend xs x y : In x xs -> writes_only xs (extend x y).
Proof.
  intros Hx. unfold extend. apply wo_bind; [apply wo_name|].
  intros [| | | |l|]; try apply wo_lift.
  apply wo_bind; [apply wo_name|]. intros a.
  apply wo_bind; [apply wo_lift|]. intros more. now apply wo_assign.
Qed.

Lemma wo_append xs x (arg : M value) :
  In x xs -> writes_only xs arg -> writes_only xs (append x arg).
Proof.
  intros Hx Harg. unfold append. apply wo_bind; [apply wo_name|].
  intros [| | | |l|]; try apply wo_lift.
  apply wo_bind; [exact Harg|]. intros a. now apply wo_assign.
Qed.

Lemma wo_data_items xs doc_var acc_var :
  writes_only xs (data_items doc_var acc_var).
Proof.
  unfold data_items.
  repeat (apply wo_bind; [first [apply wo_name | apply wo_lift]|]; intros ?).
  apply wo_lift.
Qed.

Lemma wo_interacting xs cand items : writes_only xs (interacting cand items).
Proof.
  induction items as [|x items IH]; cbn [interacting]; [apply wo_ret|].
  apply wo_bind; [apply wo_lift|]. intros i.
  apply wo_bind; [apply wo_name|]. intros c.
  apply wo_bind; [apply wo_lift|]. intros [|]; [|exact IH].
  apply wo_bind; [apply wo_lift|]. intros v.
  apply wo_bind; [exact IH|]. intros vs. apply wo_ret.
Qed.

Lemma wo_predicted_cell allow :
  writes_only ["provider_data"; "residues"; PRED] (predicted_cell allow).
Proof.
  unfold predicted_cell. apply wo_bind; [apply wo_fresh_list; names|].
  intros _.
  apply wo_bind; [apply wo_data_items|]. intros items.
  apply wo_for_each; [names|]. unfold predicted_body.
  apply wo_bind; [apply wo_name|]. intros pd.
  apply wo_bind; [apply wo_lift|]. intros acc.
  apply wo_bind; [apply wo_lift|]. intros [|]; [|apply wo_ret].
  apply wo_bind; [apply wo_name|]. intros pd'.
  do 3 (apply wo_bind; [apply wo_lift|]; intros ?).
  apply wo_bind; [apply wo_assign; names|]. intros _.
  apply wo_extend. names.
Qed.

Lemma wo_interface_cell acc_var cand_var partner :
  writes_only ["item"; "interacting_residues"; IFACE]
    (interface_cell acc_var cand_var partner).
Proof.
  unfold interface_cell. apply wo_bind; [apply wo_fresh_list; names|].
  intros _.
  apply wo_bind; [apply wo_data_items|]. intros items.
  apply wo_for_each; [names|]. unfold interface_body.
  apply wo_bind; [apply wo_name|]. intros it.
  apply wo_bind; [apply wo_lift|]. intros n.
  destruct (py_eq n (VStr partner)); [|apply wo_ret].
  apply wo_bind; [apply wo_name|]. intros it'.
  do 2 (apply wo_bind; [apply wo_lift|]; intros ?).
  apply wo_bind; [apply wo_interacting|]. intros found.
  apply wo_bind; [apply wo_assign; names|]. intros _.
  apply wo_extend. names.
Qed.

Lemma wo_ligand_cell acc_var :
  writes_only ["ligand"; "residue"; LIGS] (ligand_cell acc_var).
Proof.
  unfold ligand_cell. apply wo_bind; [apply wo_fresh_list; names|].
  intros _.
  apply wo_bind; [apply wo_data_items|]. intros items.
  apply wo_for_each; [names|]. unfold ligand_body.
  apply wo_bind; [apply wo_name|]. intros lg.
  do 2 (apply wo_bind; [apply wo_lift|]; intros ?).
  apply wo_for_break; [names|]. unfold ligand_probe.
  apply wo_bind; [apply wo_name|]. intros r.
  apply wo_bind; [apply wo_lift|]. intros i.
  apply wo_bind; [apply wo_name|]. intros c.
  apply wo_bind; [apply wo_lift|]. intros [|]; [|apply wo_ret].
  apply wo_bind; [|intros _; apply wo_ret].
  apply wo_append; [names|].
  apply wo_bind; [apply wo_name|]. intros lg'. apply wo_lift.
Qed.

Lemma writes_only_incl {A} xs ys (m : M A) :
  incl xs ys -> writes_only xs m -> writes_only ys m.
Proof. intros Hi Hm e x Hx. apply Hm. intros Hin. apply Hx, Hi, Hin. Qed.

Lemma wo_pipeline :
  writes_only cell_names
    (pipeline Example.step4 Example.step6 Example.step7).
Proof.
  unfold pipeline.
  apply wo_bind;
    [eapply writes_only_incl; [|apply wo_predicted_cell]; incl_names|].
  intros _. apply wo_bind;
    [eapply writes_only_incl; [|apply wo_interface_cell]; incl_names|].
  intros _. eapply writes_only_incl; [|apply wo_ligand_cell]. incl_names.
Qed.

Lemma sim_pipeline :
  sim ("list" :: input_names) (output_names ++ "list" :: input_names)
    (pipeline Example.step4 Example.step6 Example.step7).
Proof.
  unfold pipeline.
  eapply sim_bind; [apply sim_predicted_cell; names|]. intros _.
  eapply sim_bind; [apply sim_interface_cell; names|]. intros _.
  eapply sim_post; [|apply sim_ligand_cell; names]. incl_names.
Qed.

Lemma agree_unshadowed xs (e1 e2 : env) :
  agree xs e1 e2 -> e1 !! "list" = None -> e2 !! "list" = None ->
  agree ("list" :: xs) e1 e2.
Proof.
  intros Ha H1 H2 x [<-|Hx]; [now rewrite H1, H2 | now apply Ha].
Qed.

(** C8.  While the builtin [list] is left unshadowed, the run of the three
    cells is a function of the three documents and the accession alone:
    two such kernels that agree on them end alike (normally, or with the
    same exception) and, when the run ends normally, bind the three output
    lists alike, whatever else the kernels held before; in particular
    running the cells again on the kernel that a run leaves gives the same
    outcome and the same three lists. *)
Theorem pipeline_deterministic (e1 e2 : env) :
  agree input_names e1 e2 ->
  e1 !! "list" = None -> e2 !! "list" = None ->
  fst (pipeline Example.step4 Example.step6 Example.step7 e1) =
    fst (pipeline Example.step4 Example.step6 Example.step7 e2) /\
  (is_ok (fst (pipeline Example.step4 Example.step6 Example.step7 e1)) = true ->
   agree output_names
     (snd (pipeline Example.step4 Example.step6 Example.step7 e1))
     (snd (pipeline Example.step4 Example.step6 Example.step7 e2))) /\
  fst (pipeline Example.step4 Example.step6 Example.step7
         (snd (pipeline Example.step4 Example.step6 Example.step7 e1))) =
    fst (pipeline Example.step4 Example.step6 Example.step7 e1) /\
  (is_ok (fst (pipeline Example.step4 Example.step6 Example.step7 e1)) = true ->
   agree output_names
     (snd (pipeline Example.step4 Example.step6 Example.step7
             (snd (pipeline Example.step4 Example.step6 Example.step7 e1))))
     (snd (pipeline Example.step4 Example.step6 Example.step7 e1))).
Proof.
  intros Ha H1 H2.
  set (run := pipeline Example.step4 Example.step6 Example.step7).
  destruct (sim_pipeline e1 e2 (agree_unshadowed _ _ _ Ha H1 H2)) as [Hr Hq].
  fold run in Hr, Hq.
  assert (Hkeep : agree ("list" :: input_names) (snd (run e1)) e1).
  { intros x Hx. apply wo_pipeline. revert Hx. clear. names; discriminate. }
  destruct (sim_pipeline _ _ Hkeep) as [Hr' Hq']. fold run in Hr', Hq'.
  split; [exact Hr|]. split.
  - intros Hok. eapply agree_incl; [|exact (Hq Hok)]. incl_names.
  - split; [exact Hr'|]. intros Hok.
    eapply agree_incl; [|apply Hq'; now rewrite Hr']. incl_names.
Qed.

(** ** The candidate collection is read through membership only *)

Section Candidates.
Variable cand : string.
Variables c1 c2 : list value.
Hypothesis same_members :
  forall x, existsb (py_eq x) c1 = existsb (py_eq x) c2.

Lemma lockstep_ret {A} (a : A) : lockstep (twins cand c1 c2) (ret a).
Proof. intros e1 e2 H. split; [reflexivity | exact H]. Qed.

Lemma lockstep_lift {A} (r : result A) : lockstep (twins cand c1 c2) (lift r).
Proof. intros e1 e2 H. split; [reflexivity | exact H]. Qed.

Lemma lockstep_bind {A B} (m : M A) (k : A -> M B) :
  lockstep (twins cand c1 c2) m -> (forall a, lockstep (twins cand c1 c2) (k a)) ->
  lockstep (twins cand c1 c2) (bind m k).
Proof.
  intros Hm Hk e1 e2 H. destruct (Hm e1 e2 H) as [Hr Ht]. unfold bind.
  destruct (m e1) as [[a1|x1] e1'], (m e2) as [[a2|x2] e2'];
    cbn [fst snd] in *; try discriminate.
  - injection Hr as ->. now apply Hk.
  - injection Hr as ->. split; [reflexivity | exact Ht].
Qed.

Lemma lockstep_name x : x <> cand -> lockstep (twins cand c1 c2) (name x).
Proof.
  intros Hx e1 e2 H. unfold name. rewrite <- (proj1 H x Hx).
  destruct (e1 !! x); (split; [reflexivity | exact H]).
Qed.

Lemma lockstep_assign x v : x <> cand -> lockstep (twins cand c1 c2) (assign x v).
Proof.
  intros Hx e1 e2 (Hsame & H1 & H2). split; [reflexivity|].
  unfold assign. cbn [snd]. split; [|split].
  - intros y Hy. destruct (decide (x = y)) as [->|Hne].
    + now rewrite !lookup_insert_eq.
    + rewrite !lookup_insert_ne by exact Hne. now apply Hsame.
  - now rewrite lookup_insert_ne.
  - now rewrite lookup_insert_ne.
Qed.

Lemma lockstep_fresh_list x :
  x <> cand -> "list" <> cand -> lockstep (twins cand c1 c2) (fresh_list x).
Proof.
  intros Hx Hl e1 e2 H. unfold fresh_list, bind, builtin.
  rewrite <- (proj1 H "list" Hl).
  destruct (e1 !! "list"); [split; [reflexivity | exact H]|].
  now apply lockstep_assign.
Qed.

(** [i in cand]: the one place where the candidate list is read. *)
Lemma lockstep_member {A} (i : value) (k : bool -> M A) :
  (forall hit, lockstep (twins cand c1 c2) (k hit)) ->
  lockstep (twins cand c1 c2) (c <- name cand ;; hit <- lift (contains c i) ;; k hit).
Proof.
  intros Hk e1 e2 H. pose proof H as (_ & H1 & H2).
  rewrite (run_bind _ _ e1 _ _ (run_name _ _ _ H1)).
  rewrite (run_bind _ _ e2 _ _ (run_name _ _ _ H2)).
  cbn [contains]. unfold bind at 1 3, lift. rewrite same_members.
  now apply Hk.
Qed.

Lemma lockstep_for_each x items body :
  x <> cand -> lockstep (twins cand c1 c2) body -> lockstep (twins cand c1 c2) (for_each x items body).
Proof.
  intros Hx Hb. induction items as [|v items IH]; cbn [for_each].
  - apply lockstep_ret.
  - apply lockstep_bind; [now apply lockstep_assign|]. intros _.
    apply lockstep_bind; [exact Hb|]. intros _. exact IH.
Qed.

Lemma lockstep_for_break x items body :
  x <> cand -> lockstep (twins cand c1 c2) body ->
  lockstep (twins cand c1 c2) (for_break x items body).
Proof.
  intros Hx Hb. induction items as [|v items IH]; cbn [for_break].
  - apply lockstep_ret.
  - apply lockstep_bind; [now apply lockstep_assign|]. intros _.
    apply lockstep_bind; [exact Hb|].
    intros [|]; [apply lockstep_ret | exact IH].
Qed.

Lemma lockstep_extend xs ys :
  xs <> cand -> ys <> cand -> lockstep (twins cand c1 c2) (extend xs ys).
Proof.
  intros Hx Hy. unfold extend.
  apply lockstep_bind; [now apply lockstep_name|].
  intros [| | | |l|]; try apply lockstep_lift.
  apply lockstep_bind; [now apply lockstep_name|]. intros a.
  apply lockstep_bind; [apply lockstep_lift|]. intros more.
  now apply lockstep_assign.
Qed.

Lemma lockstep_append xs (arg : M value) :
  xs <> cand -> lockstep (twins cand c1 c2) arg -> lockstep (twins cand c1 c2) (append xs arg).
Proof.
  intros Hx Harg. unfold append.
  apply lockstep_bind; [now apply lockstep_name|].
  intros [| | | |l|]; try apply lockstep_lift.
  apply lockstep_bind; [exact Harg|]. intros a. now apply lockstep_assign.
Qed.

Lemma lockstep_data_items doc_var acc_var :
  doc_var <> cand -> acc_var <> cand ->
  lockstep (twins cand c1 c2) (data_items doc_var acc_var).
Proof.
  intros Hd Ha. unfold data_items.
  apply lockstep_bind; [now apply lockstep_name|]. intros d.
  apply lockstep_bind; [now apply lockstep_name|]. intros k.
  apply lockstep_bind; [apply lockstep_lift|]. intros a.
  apply lockstep_bind; [apply lockstep_lift|]. intros b.
  apply lockstep_lift.
Qed.

Lemma lockstep_interacting xs : lockstep (twins cand c1 c2) (interacting cand xs).
Proof.
  induction xs as [|x xs IH]; cbn [interacting]; [apply lockstep_ret|].
  apply lockstep_bind; [apply lockstep_lift|]. intros i.
  apply lockstep_member. intros [|]; [|exact IH].
  apply lockstep_bind; [apply lockstep_lift|]. intros v.
  apply lockstep_bind; [exact IH|]. intros vs. apply lockstep_ret.
Qed.
End Candidates.

Lemma lockstep_interface_cell c1 c2 partner :
  (forall x, existsb (py_eq x) c1 = existsb (py_eq x) c2) ->
  lockstep (twins PRED c1 c2) (interface_cell "ACCESSION" PRED partner).
Proof.
  intros Hmem. unfold interface_cell.
  apply lockstep_bind; [now apply lockstep_fresh_list|]. intros _.
  apply lockstep_bind; [now apply lockstep_data_items|]. intros items.
  apply lockstep_for_each; [discriminate|]. unfold interface_body.
  apply lockstep_bind; [now apply lockstep_name|]. intros it.
  apply lockstep_bind; [apply lockstep_lift|]. intros n.
  destruct (py_eq n (VStr partner)); [|apply lockstep_ret].
  apply lockstep_bind; [now apply lockstep_name|]. intros it'.
  apply lockstep_bind; [apply lockstep_lift|]. intros rs.
  apply lockstep_bind; [apply lockstep_lift|]. intros xs.
  apply lockstep_bind; [now apply lockstep_interacting|]. intros found.
  apply lockstep_bind; [now apply lockstep_assign|]. intros _.
  now apply lockstep_extend.
Qed.

Lemma lockstep_ligand_cell c1 c2 :
  (forall x, existsb (py_eq x) c1 = existsb (py_eq x) c2) ->
  lockstep (twins IFACE c1 c2) (ligand_cell "ACCESSION").
Proof.
  intros Hmem. unfold ligand_cell.
  apply lockstep_bind; [now apply lockstep_fresh_list|]. intros _.
  apply lockstep_bind; [now apply lockstep_data_items|]. intros items.
  apply lockstep_for_each; [discriminate|]. unfold ligand_body.
  apply lockstep_bind; [now apply lockstep_name|]. intros lg.
  apply lockstep_bind; [apply lockstep_lift|]. intros rs.
  apply lockstep_bind; [apply lockstep_lift|]. intros xs.
  apply lockstep_for_break; [discriminate|]. unfold ligand_probe.
  apply lockstep_bind; [now apply lockstep_name|]. intros r.
  apply lockstep_bind; [apply lockstep_lift|]. intros i.
  apply lockstep_member; [exact Hmem|]. intros [|]; [|apply lockstep_ret].
  apply lockstep_bind; [|intros _; apply lockstep_ret].
  apply lockstep_append; [discriminate|].
  apply lockstep_bind; [now apply lockstep_name|]. intros lg'.
  apply lockstep_lift.
Qed.

Lemma twins_insert cand c1 c2 (e : env) :
  twins cand c1 c2 (<[cand := VList c1]> e) (<[cand := VList c2]> e).
Proof.
  split; [|split].
  - intros x Hx. now rewrite !lookup_insert_ne.
  - apply lookup_insert_eq.
  - apply lookup_insert_eq.
Qed.

Lemma same_members_ints (c1 c2 : list Z) :
  (forall z, In z c1 <-> In z c2) ->
  forall x, existsb (py_eq x) (map VInt c1) = existsb (py_eq x) (map VInt c2).
Proof.
  intros Hset.
  assert (Hm : forall z, memZ z c1 = memZ z c2).
  { intros z. apply eq_true_iff_eq. rewrite !memZ_In. apply Hset. }
  assert (Hx : forall x c,
    existsb (py_eq x) (map VInt c) =
    match as_index x with Some z => memZ z c | None => false end).
  { intros x c. induction c as [|z c IH];
      [now destruct x as [| [|] | | | |]|].
    cbn [map existsb]. rewrite IH. unfold memZ.
    destruct x as [| b | n | | |]; cbn [py_eq as_index existsb orb];
      try reflexivity. }
  intros x. rewrite !Hx. destruct (as_index x); [apply Hm | reflexivity].
Qed.

(** C9.  Stage 2 and stage 3 read their candidate collection through
    membership tests only: on any kernel (whatever the documents hold),
    two candidate lists with the same elements, in any order and with any
    repetitions, give the same outcome and the same output list. *)
Theorem candidates_used_as_a_set (e : env) (partner : string)
    (c1 c2 : list Z) :
  (forall z, In z c1 <-> In z c2) ->
  (fst (interface_cell "ACCESSION" PRED partner
          (<[PRED := VList (map VInt c1)]> e)) =
   fst (interface_cell "ACCESSION" PRED partner
          (<[PRED := VList (map VInt c2)]> e)) /\
   snd (interface_cell "ACCESSION" PRED partner
          (<[PRED := VList (map VInt c1)]> e)) !! IFACE =
   snd (interface_cell "ACCESSION" PRED partner
          (<[PRED := VList (map VInt c2)]> e)) !! IFACE) /\
  (fst (ligand_cell "ACCESSION" (<[IFACE := VList (map VInt c1)]> e)) =
   fst (ligand_cell "ACCESSION" (<[IFACE := VList (map VInt c2)]> e)) /\
   snd (ligand_cell "ACCESSION" (<[IFACE := VList (map VInt c1)]> e)) !! LIGS =
   snd (ligand_cell "ACCESSION" (<[IFACE := VList (map VInt c2)]> e)) !! LIGS).
Proof.
  intros Hset. pose proof (same_members_ints c1 c2 Hset) as Hmem. split.
  - destruct (lockstep_interface_cell _ _ partner Hmem _ _
                (twins_insert PRED _ _ e)) as [Hr (Hsame & _)].
    split; [exact Hr | now apply Hsame].
  - destruct (lockstep_ligand_cell _ _ Hmem _ _
                (twins_insert IFACE _ _ e)) as [Hr (Hsame & _)].
    split; [exact Hr | now apply Hsame].
Qed.

(** ** Missing keys *)
















(** ** The helper functions *)

(** C4, with the decoder's failure told apart.  [parse_data] calls
    [json()] and answers what it answers (the decoded body, or the
    exception of the decoder when the body is not a JSON text) exactly when
    the status code is 200, and raises [ValueError('No data received')]
    without calling [json()] exactly when it is not; it returns a decoded
    body exactly when the status code is 200 and the body decodes. *)
Theorem parse_data_by_status (r : Response) :
  (status_code r = 200 <-> parse_data (Some r) = (json r, [JsonCalled])) /\
  (status_code r <> 200 <->
   parse_data (Some r) = (Err (ValueError "No data received"), [])) /\
  (forall body, fst (parse_data (Some r)) = Ok body <->
                status_code r = 200 /\ json r = Ok body).
Proof.
  unfold parse_data. destruct (Z.eqb_spec (status_code r) 200) as [H|H].
  - repeat split; try tauto; try discriminate; cbn [fst]; tauto.
  - repeat split; try tauto; try discriminate; cbn [fst]; tauto.
Qed.

(** C4 as it is worded fails from right to left: the status code of the
    response below is 200 and its body is not a JSON text; [parse_data]
    calls [json()] and ends with the exception of the decoder, so it
    returns no decoded body, and it raises an exception that is not
    ['No data received']. *)
Lemma parse_data_garbled_body :
  status_code response_garbled = 200 /\
  parse_data (Some response_garbled) = (Err JSONDecodeError, [JsonCalled]) /\
  (forall body, fst (parse_data (Some response_garbled)) <> Ok body) /\
  fst (parse_data (Some response_garbled)) <>
    Err (ValueError "No data received").
Proof.
  split; [reflexivity|]. split; [reflexivity|].
  split; [intros body|]; discriminate.
Qed.

Lemma get_data_passes_response scope http_get accession url r :
  scope "requests" = Some BOther ->
  http_get url = Ok r ->
  get_data scope http_get accession url = (Ok (Some r), []).
Proof. intros Hs Hr. unfold get_data. now rewrite Hs, Hr. Qed.

(** With [Error] bound to a class that the exception inherits from, the
    handler of [get_data] does what its docstring says. *)
Lemma get_data_handles_when_bound cls http_get accession url err :
  http_get url = Err err ->
  catches cls err = true ->
  get_data (scope_with_Error cls) http_get accession url =
    (Ok None,
     [Printed ("There was an error while retrieving the data: "
               ++ exn_str err)]).
Proof.
  intros Hr Hc. unfold get_data.
  change (scope_with_Error cls "requests") with (Some BOther).
  change (scope_with_Error cls "Error") with (Some (BExcClass cls)).
  now rewrite Hr, Hc.
Qed.

(** Whatever else the scope binds, an unbound [Error] turns every failure
    inside the [try] into a [NameError] raised by the handler. *)
Lemma get_data_unbound_handler scope http_get accession url err :
  scope "Error" = None ->
  http_get url = Err err ->
  get_data scope http_get accession url = (Err (NameError "Error"), []).
Proof.
  intros Hs Hr. unfold get_data. rewrite Hs.
  destruct (scope "requests"); [rewrite Hr|]; reflexivity.
Qed.

(** C5, on the code as it stands.  In the notebook the name [Error] is
    bound nowhere, so when [requests.get] raises, evaluating the handler's
    class raises [NameError]: nothing is caught, nothing is printed and
    [get_data] does not answer [None]. *)
Theorem get_data_transport_failure (accession url kind : string) :
  notebook_scope "Error" = None /\
  get_data notebook_scope (fun _ => Err (RequestException kind))
    accession url = (Err (NameError "Error"), []) /\
  get_data notebook_scope unreachable "P00734"
    "https://www.ebi.ac.uk/pdbe/graph-api/uniprot/annotations/P00734"
    <> (Ok None,
        [Printed ("There was an error while retrieving the data: "
                  ++ "ConnectionError")]).
Proof. repeat split. discriminate. Qed.

(** ** Concrete kernels hold their data *)

Lemma residue_json_rep zs : Forall2 residue_obj (map residue_json zs) zs.
Proof.
  induction zs as [|z zs IH]; constructor; [|exact IH].
  eexists. split; reflexivity.
Qed.

Lemma annotation_json_rep anns :
  Forall2 annotation_obj (map annotation_json anns) anns.
Proof.
  induction anns as [|r anns IH]; constructor; [|exact IH].
  eexists _, _. repeat split. apply residue_json_rep.
Qed.

Lemma interaction_json_rep ints :
  Forall2 interaction_obj (map interaction_json ints) ints.
Proof.
  induction ints as [|r ints IH]; constructor; [|exact IH].
  eexists _, _. repeat split. apply residue_json_rep.
Qed.

Lemma ligand_json_rep ligs : Forall2 ligand_obj (map ligand_json ligs) ligs.
Proof.
  induction ligs as [|r ligs IH]; constructor; [|exact IH].
  eexists _, _. repeat split. apply residue_json_rep.
Qed.

Lemma document_json_rep acc items : document (document_json acc items) acc items.
Proof.
  eexists _, _. split; [reflexivity|]. cbn [dict_get].
  rewrite String.eqb_refl. split; reflexivity.
Qed.

Lemma kernel_holds_annotations anns ints ligs :
  holds annotation_obj "annotations_data" (kernel anns ints ligs) anns.
Proof.
  exists (document_json "P00734" (map annotation_json anns)), "P00734",
    (map annotation_json anns).
  split; [reflexivity|]. split; [reflexivity|].
  split; [apply document_json_rep | apply annotation_json_rep].
Qed.

Lemma kernel_holds_interactions anns ints ligs :
  holds interaction_obj "interactions_data" (kernel anns ints ligs) ints.
Proof.
  exists (document_json "P00734" (map interaction_json ints)), "P00734",
    (map interaction_json ints).
  split; [reflexivity|]. split; [reflexivity|].
  split; [apply document_json_rep | apply interaction_json_rep].
Qed.

Lemma kernel_holds_ligands anns ints ligs :
  holds ligand_obj "ligands_data" (kernel anns ints ligs) ligs.
Proof.
  exists (document_json "P00734" (map ligand_json ligs)), "P00734",
    (map ligand_json ligs).
  split; [reflexivity|]. split; [reflexivity|].
  split; [apply document_json_rep | apply ligand_json_rep].
Qed.

Lemma holds_keeps {R} (rep : value -> R -> Prop) doc_var (e e' : env) recs :
  e' !! doc_var = e !! doc_var ->
  e' !! "ACCESSION" = e !! "ACCESSION" ->
  holds rep doc_var e recs -> holds rep doc_var e' recs.
Proof.
  intros Hd Ha (doc & acc & items & H1 & H2 & H3 & H4).
  exists doc, acc, items. rewrite Hd, Ha. auto.
Qed.

(** ** The worked example *)

Lemma interleaved_filter cand l rs :
  (forall z, In z l -> In z cand) ->
  interleaved cand l rs ->
  List.filter (fun z => memZ z cand) rs = l.
Proof.
  intros Hl H. induction H as [|z l rs _ IH|z l rs Hz _ IH];
    cbn [List.filter].
  - reflexivity.
  - assert (Hm : memZ z cand = true) by (apply memZ_In, Hl; now left).
    rewrite Hm. f_equal. apply IH. intros y Hy. apply Hl. now right.
  - destruct (memZ z cand) eqn:Hm; [|now apply IH].
    apply memZ_In in Hm. contradiction.
Qed.

Lemma extractInterfaceResidues_filter recs partner cand :
  extractInterfaceResidues recs partner cand =
  List.filter (fun z => memZ z cand) (partner_residues recs partner).
Proof.
  unfold extractInterfaceResidues, partner_residues.
  induction (List.filter _ recs) as [|r l IH]; [reflexivity|].
  cbn [flat_map]. now rewrite List.filter_app, IH.
Qed.

(** C7, with the side condition it needs.  On a kernel that leaves the
    builtin [list] unshadowed: given annotation data whose allowlisted
    residues include the nine residues 388 ... 591, and interaction data
    in which the residues of the records named "Hirudin variant-1" are, in
    encounter order, those nine among other residues none of which is an
    allowlisted residue, Step 4 followed by Step 6 leaves exactly the nine
    residues, in that order. *)
Theorem worked_example_interface (e : env) (anns : list Annotation)
    (ints : list Interaction) :
  e !! "list" = None ->
  holds annotation_obj "annotations_data" e anns ->
  holds interaction_obj "interactions_data" e ints ->
  (forall z, In z worked_interface ->
     In z (extractPredictedBindingResidues anns ["p2rank"; "cansar"])) ->
  interleaved (extractPredictedBindingResidues anns ["p2rank"; "cansar"])
    worked_interface (partner_residues ints "Hirudin variant-1") ->
  fst (bind Example.step4 (fun _ => Example.step6) e) = Ok tt /\
  snd (bind Example.step4 (fun _ => Example.step6) e) !! IFACE =
    Some (VList (map VInt worked_interface)).
Proof.
  intros Hl Hanns Hints Hincl Hinter.
  destruct (predicted_cell_run e anns ["p2rank"; "cansar"] Hl Hanns)
    as (e1 & Hrun1 & Hout1).
  assert (Hkeep : forall x, ~ In x ["provider_data"; "residues"; PRED] ->
                            e1 !! x = e !! x).
  { intros x Hx. change e1 with (snd (Ok tt, e1)). rewrite <- Hrun1.
    now apply wo_predicted_cell. }
  assert (Hl1 : e1 !! "list" = None)
    by (rewrite Hkeep; [exact Hl | cbn; intuition discriminate]).
  assert (Hints1 : holds interaction_obj "interactions_data" e1 ints)
    by (eapply holds_keeps; [| |exact Hints]; apply Hkeep; cbn;
        intuition discriminate).
  destruct (interface_cell_run e1 ints "Hirudin variant-1" _ Hl1 Hints1 Hout1)
    as (e2 & Hrun2 & Hout2).
  unfold Example.step4, Example.step6.
  erewrite run_bind by exact Hrun1. rewrite Hrun2. cbn [fst snd].
  split; [reflexivity|]. rewrite Hout2. do 3 f_equal.
  rewrite extractInterfaceResidues_filter.
  now apply interleaved_filter.
Qed.

(** C7 as it is worded fails: the record of Hirudin variant-1 below lists
    the nine residues and also residue 136, which is a predicted residue,
    and the output then starts with 136. *)
Lemma worked_example_overlap :
  holds annotation_obj "annotations_data" overlapping_kernel
    worked_annotations /\
  holds interaction_obj "interactions_data" overlapping_kernel
    overlapping_interactions /\
  forallb (fun z => memZ z
             (extractPredictedBindingResidues worked_annotations
                ["p2rank"; "cansar"]))
    worked_interface = true /\
  existsb (fun r => String.eqb (partnerName r) "Hirudin variant-1" &&
                    forallb (fun z => memZ z (interfaceResidues r))
                      worked_interface)
    overlapping_interactions = true /\
  snd (bind Example.step4 (fun _ => Example.step6) overlapping_kernel)
    !! IFACE = Some (VList (map VInt (136 :: worked_interface))) /\
  snd (bind Example.step4 (fun _ => Example.step6) overlapping_kernel)
    !! IFACE <> Some (VList (map VInt worked_interface)).
Proof.
  split; [apply kernel_holds_annotations|].
  split; [apply kernel_holds_interactions|].
  split; [reflexivity|]. split; [reflexivity|].
  assert (H : snd (bind Example.step4 (fun _ => Example.step6)
                     overlapping_kernel) !! IFACE =
              Some (VList (map VInt (136 :: worked_interface))))
    by (vm_compute; reflexivity).
  split; [exact H|]. rewrite H. discriminate.
Qed.

(** C10, on the code as it stands.  After Steps 1 to 5 have run from top
    to bottom the kernel binds [ACCESSION] and
    [all_predicted_ligand_binding_residues], not [accession] nor
    [all_ligand_binding_residues]: the cells of [example.ipynb] compute
    the two lists, those of the older copy raise [NameError] and leave
    the lists empty or unbound. *)
Theorem older_copy_diverges :
  fst (bind Example.step4 (fun _ => Example.step6) demo_kernel) = Ok tt /\
  snd (bind Example.step4 (fun _ => Example.step6) demo_kernel) !! IFACE =
    Some (VList [VInt 3; VInt 1]) /\
  fst (bind Older.step4 (fun _ => Older.step6) demo_kernel) =
    Err (NameError "accession") /\
  snd (bind Older.step4 (fun _ => Older.step6) demo_kernel) !! IFACE =
    Some (VList []) /\
  snd (Example.step7
         (snd (bind Example.step4 (fun _ => Example.step6) demo_kernel)))
    !! LIGS = Some (VList [VStr "TYS"; VStr "MRD"; VStr "TYS"]) /\
  fst (Older.step7
         (snd (bind Example.step4 (fun _ => Example.step6) demo_kernel))) =
    Err (NameError "accession") /\
  snd (Older.step7
         (snd (bind Example.step4 (fun _ => Example.step6) demo_kernel)))
    !! LIGS = Some (VList []).
Proof. repeat split; vm_compute; reflexivity. Qed.


Example ligand_probe_breaks_demo :
  fst (for_break "residue" [residue_json 3; VNone] ligand_probe
         (<["ligand" := ligand_json
               {| ligandAccession := "TYS"; ligandResidues := [3] |}]>
            (<[LIGS := VList []]> demo_kernel_with_interface))) = Ok tt /\
  fst (for_break "residue" [VNone; residue_json 3] ligand_probe
         (<["ligand" := ligand_json
               {| ligandAccession := "TYS"; ligandResidues := [3] |}]>
            (<[LIGS := VList []]> demo_kernel_with_interface))) =
    Err TypeError.
Proof. split; vm_compute; reflexivity. Qed.

Example partner_name_is_case_sensitive :
  extractInterfaceResidues demo_interactions "Hirudin variant-1" [1; 2; 3; 4]
    = [3; 1] /\
  extractInterfaceResidues demo_interactions "hirudin variant-1" [1; 2; 3; 4]
    = [4] /\
  extractInterfaceResidues demo_interactions "Hirudin" [1; 2; 3; 4] = [].
Proof. repeat split. Qed.

Example parse_data_examples :
  parse_data (Some response_ok) = (json response_ok, [JsonCalled]) /\
  parse_data (Some response_not_found) =
    (Err (ValueError "No data received"), []) /\
  parse_data (Some response_garbled) = (Err JSONDecodeError, [JsonCalled]) /\
  parse_data None = (Err (AttributeError "status_code"), []).
Proof. repeat split. Qed.

Example get_data_examples :
  get_data notebook_scope (fun _ => Ok response_ok) "P00734" "url" =
    (Ok (Some response_ok), []) /\
  get_data (scope_with_Error "Exception") unreachable "P00734" "url" =
    (Ok None,
     [Printed "There was an error while retrieving the data: ConnectionError"]).
Proof. split; reflexivity. Qed.

(** ** The theorems at concrete kernels *)

Lemma forallb_memZ_incl l cand :
  forallb (fun z => memZ z cand) l = true -> forall z, In z l -> In z cand.
Proof.
  intros H z Hz. apply memZ_In. rewrite forallb_forall in H. now apply H.
Qed.

Lemma memZ_false_not_In z l : memZ z l = false -> ~ In z l.
Proof. intros H Hin. apply memZ_In in Hin. congruence. Qed.

Lemma predicted_cell_correct_demo :
  demo_kernel !! "list" = None /\
  holds annotation_obj "annotations_data" demo_kernel demo_annotations /\
  snd (predicted_cell ["p2rank"; "cansar"] demo_kernel) !! PRED =
    Some (VList [VInt 1; VInt 2; VInt 3; VInt 3; VInt 4]).
Proof.
  split; [reflexivity|]. split; [apply kernel_holds_annotations|].
  exact (proj1 (proj2 (predicted_cell_correct demo_kernel demo_annotations
           ["p2rank"; "cansar"] eq_refl (kernel_holds_annotations _ _ _)))).
Defined.

Lemma interface_cell_correct_demo :
  demo_kernel_with_predicted !! "list" = None /\
  holds interaction_obj "interactions_data" demo_kernel_with_predicted
    demo_interactions /\
  demo_kernel_with_predicted !! PRED =
    Some (VList (map VInt [1; 2; 3; 3; 4])) /\
  snd (interface_cell "ACCESSION" PRED "Hirudin variant-1"
         demo_kernel_with_predicted) !! IFACE =
    Some (VList [VInt 3; VInt 1]).
Proof.
  assert (H : holds interaction_obj "interactions_data"
                demo_kernel_with_predicted demo_interactions).
  { apply (holds_keeps _ _ demo_kernel);
      [reflexivity | reflexivity | apply kernel_holds_interactions]. }
  split; [reflexivity|]. split; [exact H|]. split; [reflexivity|].
  exact (proj1 (proj2 (interface_cell_correct demo_kernel_with_predicted
           demo_interactions "Hirudin variant-1" [1; 2; 3; 3; 4]
           eq_refl H eq_refl))).
Defined.

Lemma ligand_cell_correct_demo :
  demo_kernel_with_interface !! "list" = None /\
  holds ligand_obj "ligands_data" demo_kernel_with_interface demo_ligands /\
  demo_kernel_with_interface !! IFACE = Some (VList (map VInt [3; 1])) /\
  snd (ligand_cell "ACCESSION" demo_kernel_with_interface) !! LIGS =
    Some (VList [VStr "TYS"; VStr "MRD"; VStr "TYS"]).
Proof.
  assert (H : holds ligand_obj "ligands_data" demo_kernel_with_interface
                demo_ligands).
  { apply (holds_keeps _ _ demo_kernel);
      [reflexivity | reflexivity | apply kernel_holds_ligands]. }
  split; [reflexivity|]. split; [exact H|]. split; [reflexivity|].
  exact (proj1 (proj2 (ligand_cell_correct demo_kernel_with_interface
           demo_ligands [3; 1] eq_refl H eq_refl))).
Defined.


Lemma worked_example_interface_demo :
  worked_kernel !! "list" = None /\
  holds annotation_obj "annotations_data" worked_kernel worked_annotations /\
  holds interaction_obj "interactions_data" worked_kernel
    worked_interactions /\
  extractPredictedBindingResidues worked_annotations ["p2rank"; "cansar"] =
    worked_predicted /\
  snd (bind Example.step4 (fun _ => Example.step6) worked_kernel) !! IFACE =
    Some (VList (map VInt worked_interface)).
Proof.
  split; [reflexivity|].
  split; [apply kernel_holds_annotations|].
  split; [apply kernel_holds_interactions|].
  split; [reflexivity|].
  apply (worked_example_interface worked_kernel worked_annotations
           worked_interactions).
  - reflexivity.
  - apply kernel_holds_annotations.
  - apply kernel_holds_interactions.
  - apply forallb_memZ_incl. reflexivity.
  - change (extractPredictedBindingResidues worked_annotations
              ["p2rank"; "cansar"]) with worked_predicted.
    change (partner_residues worked_interactions "Hirudin variant-1")
      with [100; 388; 406; 200; 434; 541; 565; 566; 568; 589; 591; 600].
    unfold worked_interface.
    repeat first
      [ apply interleaved_nil
      | apply interleaved_keep
      | apply interleaved_other; [apply memZ_false_not_In; reflexivity|] ].
Defined.

Lemma pipeline_deterministic_demo :
  agree input_names demo_kernel demo_kernel_stale /\
  demo_kernel !! "list" = None /\
  demo_kernel_stale !! "list" = None /\
  demo_kernel !! LIGS <> demo_kernel_stale !! LIGS /\
  fst (pipeline Example.step4 Example.step6 Example.step7 demo_kernel) =
    fst (pipeline Example.step4 Example.step6 Example.step7
           demo_kernel_stale).
Proof.
  assert (H : agree input_names demo_kernel demo_kernel_stale).
  { intros x [<- | [<- | [<- | [<- | []]]]]; reflexivity. }
  split; [exact H|]. split; [reflexivity|]. split; [reflexivity|].
  split; [discriminate|].
  exact (proj1 (pipeline_deterministic demo_kernel demo_kernel_stale H
                  eq_refl eq_refl)).
Defined.

Lemma candidates_used_as_a_set_demo :
  (forall z, In z [1; 2; 3; 3; 4] <-> In z [4; 3; 2; 1]) /\
  snd (interface_cell "ACCESSION" PRED "Hirudin variant-1"
         (<[PRED := VList (map VInt [1; 2; 3; 3; 4])]> demo_kernel)) !! IFACE =
  snd (interface_cell "ACCESSION" PRED "Hirudin variant-1"
         (<[PRED := VList (map VInt [4; 3; 2; 1])]> demo_kernel)) !! IFACE.
Proof.
  assert (H : forall z, In z [1; 2; 3; 3; 4] <-> In z [4; 3; 2; 1])
    by (intros z; cbn; tauto).
  split; [exact H|].
  exact (proj2 (proj1 (candidates_used_as_a_set demo_kernel
           "Hirudin variant-1" [1; 2; 3; 3; 4] [4; 3; 2; 1] H))).
Defined.

(** ** Fetching a document *)

Lemma fetch_answered scope http_get accession url r :
  scope "requests" <> None ->
  http_get url = Ok r ->
  fetch scope http_get accession url = parse_data (Some r).
Proof.
  intros Hs Hr. unfold fetch, get_data.
  destruct (scope "requests"); [|contradiction]. rewrite Hr.
  now destruct (parse_data (Some r)).
Qed.

Lemma get_data_no_response scope http_get accession url :
  (scope "requests" = None \/ exists err, http_get url = Err err) ->
  forall r, fst (get_data scope http_get accession url) <> Ok (Some r).
Proof.
  intros H r. unfold get_data.
  assert (Hin : exists err,
            match scope "requests" with
            | Some _ => http_get url
            | None => Err (NameError "requests")
            end = Err err).
  { destruct H as [-> | (err & Herr)]; [eauto|].
    destruct (scope "requests"); eauto. }
  destruct Hin as (err & ->).
  destruct (scope "Error") as [[cls|]|]; try discriminate.
  destruct (catches cls err); discriminate.
Qed.

Lemma fetch_document_inv scope http_get accession url doc :
  fst (fetch scope http_get accession url) = Ok doc ->
  scope "requests" <> None /\
  exists r, http_get url = Ok r /\ status_code r = 200 /\ json r = Ok doc.
Proof.
  unfold fetch.
  destruct (get_data scope http_get accession url) as [[data|x] evs] eqn:Hg;
    [|discriminate].
  destruct data as [r|]; [|cbn; discriminate].
  assert (Hs : scope "requests" <> None).
  { intros Hn.
    eapply (get_data_no_response scope http_get accession url);
      [left; exact Hn | rewrite Hg; reflexivity]. }
  assert (Hr : http_get url = Ok r).
  { destruct (http_get url) as [r'|err] eqn:Hh.
    - unfold get_data in Hg. rewrite Hh in Hg.
      destruct (scope "requests"); [|contradiction]. congruence.
    - exfalso.
      eapply (get_data_no_response scope http_get accession url);
        [right; eauto | rewrite Hg; reflexivity]. }
  unfold parse_data.
  destruct (Z.eqb_spec (status_code r) 200) as [H200|H200];
    cbn [fst]; [|discriminate].
  intros Hj. split; [exact Hs|]. exists r. auto.
Qed.

(** X1.  [parse_data(get_data(accession, url))] yields a document exactly
    when the name [requests] is bound, the request was answered, the
    status is 200 and the body decodes to that document; whatever the
    scope binds, no other situation yields a document. *)
Theorem fetch_yields_document (scope : string -> option binding)
    (http_get : string -> result Response) (accession url : string)
    (doc : value) :
  fst (fetch scope http_get accession url) = Ok doc <->
  scope "requests" <> None /\
  exists r, http_get url = Ok r /\ status_code r = 200 /\ json r = Ok doc.
Proof.
  split; [apply fetch_document_inv|].
  intros (Hs & r & Hr & H200 & Hj).
  rewrite (fetch_answered _ _ _ _ _ Hs Hr). unfold parse_data.
  rewrite H200. cbn. exact Hj.
Qed.

(** X2.  In the notebook, where [Error] is unbound, the fetch raises
    [ValueError('No data received')] without calling [json()] exactly
    when the request was answered with a status other than 200; a request
    that fails at the transport level raises [NameError] out of
    [get_data], and [parse_data] is not reached. *)
Theorem fetch_failures_in_notebook (http_get : string -> result Response)
    (accession url : string) :
  (fetch notebook_scope http_get accession url =
     (Err (ValueError "No data received"), []) <->
   exists r, http_get url = Ok r /\ status_code r <> 200) /\
  (forall err, http_get url = Err err ->
     fetch notebook_scope http_get accession url =
       (Err (NameError "Error"), [])).
Proof.
  assert (Hs : notebook_scope "requests" <> None) by discriminate.
  split; [split|].
  - destruct (http_get url) as [r|err] eqn:Hr.
    + rewrite (fetch_answered _ _ _ _ _ Hs Hr). unfold parse_data.
      destruct (Z.eqb_spec (status_code r) 200) as [H200|H200];
        [discriminate|].
      intros _. exists r. auto.
    + unfold fetch.
      rewrite (get_data_unbound_handler _ _ _ _ err eq_refl Hr).
      discriminate.
  - intros (r & Hr & H200).
    rewrite (fetch_answered _ _ _ _ _ Hs Hr). unfold parse_data.
    destruct (Z.eqb_spec (status_code r) 200); [contradiction | reflexivity].
  - intros err Hr. unfold fetch.
    now rewrite (get_data_unbound_handler _ _ _ _ err eq_refl Hr).
Qed.

(** X3.  Were [Error] bound to a class that the exception inherits from,
    a failed request would print the message, [get_data] would answer
    [None], and [parse_data] would then raise [AttributeError] on
    [None.status_code]: a transport failure never comes out as
    ['No data received']. *)
Theorem fetch_with_working_handler (cls : string)
    (http_get : string -> result Response) (accession url : string)
    (err : exn) :
  http_get url = Err err ->
  catches cls err = true ->
  fetch (scope_with_Error cls) http_get accession url =
    (Err (AttributeError "status_code"),
     [Printed ("There was an error while retrieving the data: "
               ++ exn_str err)]).
Proof.
  intros Hr Hc. unfold fetch.
  now rewrite (get_data_handles_when_bound cls _ _ _ err Hr Hc).
Qed.

(** ** The fetch cells *)

Lemma fetch_cell_keeps scope net var url_var (e : env) x :
  x <> var -> snd (fst (fetch_cell scope net var url_var e)) !! x = e !! x.
Proof.
  intros Hx. unfold fetch_cell.
  destruct (scope "parse_data"); [|reflexivity].
  destruct (scope "get_data"); [|reflexivity].
  destruct (e !! "ACCESSION"); [|reflexivity].
  destruct (e !! url_var); [|reflexivity].
  destruct (fetch _ _ _ _) as [[doc|err] evs]; [|reflexivity].
  cbn [fst snd]. now rewrite lookup_insert_ne.
Qed.

(** X4.  A fetch cell ends normally only when its address variable holds a
    string, the network answered the request to that address with status
    200 and the body decoded; it then binds the document to its variable
    and touches nothing else.  When it raises, for whatever reason, it
    leaves the kernel as it was: a document bound by an earlier run stays
    bound. *)
Theorem fetch_cell_binds_or_keeps (scope : string -> option binding)
    (net : string -> result Response) (var url_var : string) (e : env) :
  (fst (fst (fetch_cell scope net var url_var e)) = Ok tt ->
   exists u r doc,
     e !! url_var = Some (VStr u) /\
     net u = Ok r /\ status_code r = 200 /\ json r = Ok doc /\
     snd (fst (fetch_cell scope net var url_var e)) = <[var := doc]> e) /\
  (is_ok (fst (fst (fetch_cell scope net var url_var e))) = false ->
   snd (fst (fetch_cell scope net var url_var e)) = e).
Proof.
  unfold fetch_cell.
  destruct (scope "parse_data"); [|split; [discriminate | reflexivity]].
  destruct (scope "get_data"); [|split; [discriminate | reflexivity]].
  destruct (e !! "ACCESSION") as [a|]; [|split; [discriminate | reflexivity]].
  destruct (e !! url_var) as [u|]; [|split; [discriminate | reflexivity]].
  destruct (fetch scope (requests_get net u) (text_of a) (text_of u))
    as [[doc|err] evs] eqn:Hf; cbn [fst snd is_ok];
    [|split; [discriminate | reflexivity]].
  split; [|discriminate]. intros _.
  assert (Hd : fst (fetch scope (requests_get net u) (text_of a) (text_of u))
               = Ok doc) by now rewrite Hf.
  apply fetch_document_inv in Hd as (_ & r & Hr & H200 & Hj).
  destruct u as [| | |s| |]; try discriminate.
  exists s, r, doc. cbn in Hr. auto.
Qed.

(** ** The cell that lists the partners *)

Lemma partner_names_items items recs :
  Forall2 interaction_obj items recs ->
  forall (e : env) acc0,
    e !! "interaction_partner_names" = Some (VList acc0) ->
    exists e',
      for_each "item" items
        (append "interaction_partner_names"
           (it <- name "item" ;; lift (getitem it (VStr "name")))) e =
        (Ok tt, e') /\
      e' !! "interaction_partner_names" =
        Some (VList (acc0 ++ map VStr (map partnerName recs))).
Proof.
  induction 1 as [|o r items recs (m & rs & -> & Hid & _) _ IH];
    intros e acc0 Hout.
  - exists e. split; [reflexivity|]. now rewrite app_nil_r.
  - cbn [for_each]. run_step. unfold append at 1.
    do 2 run_step. simpl getitem. rewrite Hid. do 2 run_step.
    destruct (IH (<["interaction_partner_names" :=
                      VList (acc0 ++ [VStr (partnerName r)])]>
                    (<["item" := VDict m]> e))
                 (acc0 ++ [VStr (partnerName r)])%list)
      as (e2 & Hrun2 & Hout2); [now simplify_map_eq|].
    exists e2. split; [exact Hrun2|]. rewrite Hout2.
    cbn [map]. now rewrite <- app_assoc.
Qed.

Lemma partner_names_loop_run (e : env) recs :
  e !! "list" = None ->
  holds interaction_obj "interactions_data" e recs ->
  exists e',
    partner_names_loop e = (Ok tt, e') /\
    e' !! "interaction_partner_names" =
      Some (VList (map VStr (map partnerName recs))).
Proof.
  intros Hl (doc & acc & items & Hdoc & Hacc & Hshape & Hrecs).
  unfold partner_names_loop. run_step.
  erewrite run_bind
    by (eapply data_items_run; [| |exact Hshape]; now simplify_map_eq).
  destruct (partner_names_items items recs Hrecs
              (<["interaction_partner_names" := VList []]> e) [])
    as (e' & Hrun & Hout); [now simplify_map_eq|].
  exists e'. split; [exact Hrun | exact Hout].
Qed.

Lemma wo_partner_names_loop :
  writes_only ["interaction_partner_names"; "item"] partner_names_loop.
Proof.
  unfold partner_names_loop.
  apply wo_bind; [apply wo_fresh_list; names|]. intros _.
  apply wo_bind; [apply wo_data_items|]. intros items.
  apply wo_for_each; [names|].
  apply wo_append; [names|].
  apply wo_bind; [apply wo_name|]. intros it. apply wo_lift.
Qed.

Lemma partner_names_cell_kernel (e : env) :
  snd (fst (partner_names_cell e)) = snd (partner_names_loop e).
Proof.
  unfold partner_names_cell, show_cell.
  destruct (partner_names_loop e) as [[[]|x] e']; [|reflexivity].
  destruct (e' !! "interaction_partner_names"); [|reflexivity].
  now destruct (e' !! "print").
Qed.

(** X5.  On a kernel that holds the interaction records and leaves the
    builtins [list] and [print] unshadowed, the listing cell of Step 5
    ends normally, binds [interaction_partner_names] to the names of the
    records in encounter order, one per record with repetitions kept, and
    prints that list. *)
Theorem partner_names_cell_correct (e : env) (recs : list Interaction) :
  e !! "list" = None ->
  e !! "print" = None ->
  holds interaction_obj "interactions_data" e recs ->
  fst (fst (partner_names_cell e)) = Ok tt /\
  snd (fst (partner_names_cell e)) !! "interaction_partner_names" =
    Some (VList (map VStr (map partnerName recs))) /\
  snd (partner_names_cell e) =
    [Shown (VList (map VStr (map partnerName recs)))] /\
  length (map VStr (map partnerName recs)) = length recs.
Proof.
  intros Hl Hp Hholds.
  destruct (partner_names_loop_run e recs Hl Hholds) as (e' & Hrun & Hout).
  assert (Hp' : e' !! "print" = None).
  { change e' with (snd (Ok tt, e')). rewrite <- Hrun, <- Hp.
    apply wo_partner_names_loop. cbn. intuition discriminate. }
  unfold partner_names_cell, show_cell. rewrite Hrun, Hout, Hp'.
  cbn [fst snd].
  repeat split; try assumption. now rewrite !length_map.
Qed.

(** X6.  The listing cell of Step 5 is of no consequence for Step 6: on
    any kernel, Step 6 run after it ends as Step 6 run without it and,
    when it ends normally, leaves the same interface residues, although
    both cells use the loop variable [item]. *)
Theorem listing_cell_leaves_step6_alone (e : env) :
  fst (Example.step6 (snd (fst (partner_names_cell e)))) =
    fst (Example.step6 e) /\
  (is_ok (fst (Example.step6 e)) = true ->
   snd (Example.step6 (snd (fst (partner_names_cell e)))) !! IFACE =
     snd (Example.step6 e) !! IFACE).
Proof.
  rewrite partner_names_cell_kernel.
  assert (Ha : agree ["list"; "interactions_data"; "ACCESSION"; PRED]
                 e (snd (partner_names_loop e))).
  { intros x Hx. symmetry. apply wo_partner_names_loop.
    revert Hx. clear. names; discriminate. }
  destruct (sim_interface_cell ["list"; "interactions_data"; "ACCESSION"; PRED]
              "ACCESSION" PRED "Hirudin variant-1"
              ltac:(names) ltac:(names) ltac:(names) ltac:(names) _ _ Ha)
    as [Hr Hq].
  split; [symmetry; exact Hr|].
  intros Hok. symmetry. apply (Hq Hok). now left.
Qed.

(** ** What the stages leave unread *)

Lemma predicted_body_read allow o r (e : env) acc0 :
  annotation_read allow o r ->
  e !! "provider_data" = Some o ->
  e !! PRED = Some (VList acc0) ->
  exists e',
    predicted_body allow e = (Ok tt, e') /\
    e' !! PRED =
      Some (VList (acc0 ++
        if mem (providerAccession r) allow
        then map VInt (annotationResidues r) else [])).
Proof.
  intros (m & -> & Hid & Hres) Hpd Hout.
  unfold predicted_body.
  run_step. simpl getitem. rewrite Hid.
  run_step. rewrite contains_allow. run_step.
  destruct (mem (providerAccession r) allow).
  - destruct (Hres eq_refl) as (rs & Hrs & Hzs).
    run_step. simpl getitem. rewrite Hrs.
    do 2 run_step. rewrite (rmap_startIndex _ _ Hzs).
    do 2 run_step. unfold extend. do 3 run_step.
    eexists. split; [reflexivity|]. now simplify_map_eq.
  - eexists. split; [reflexivity|]. now rewrite app_nil_r.
Qed.

Lemma predicted_loop_read allow items recs :
  Forall2 (annotation_read allow) items recs ->
  forall (e : env) acc0,
    e !! PRED = Some (VList acc0) ->
    exists e',
      for_each "provider_data" items (predicted_body allow) e = (Ok tt, e') /\
      e' !! PRED =
        Some (VList (acc0 ++
          map VInt (extractPredictedBindingResidues recs allow))).
Proof.
  induction 1 as [|o r items recs Ho _ IH]; intros e acc0 Hout.
  - exists e. split; [reflexivity|]. now rewrite app_nil_r.
  - cbn [for_each]. run_step.
    destruct (predicted_body_read allow o r (<["provider_data" := o]> e)
                acc0 Ho) as (e1 & Hrun & Hout1); [now simplify_map_eq..|].
    erewrite run_bind by exact Hrun.
    destruct (IH e1 _ Hout1) as (e2 & Hrun2 & Hout2).
    exists e2. split; [exact Hrun2|]. rewrite Hout2. do 2 f_equal.
    rewrite <- app_assoc. f_equal.
    unfold extractPredictedBindingResidues. cbn [List.filter].
    destruct (mem (providerAccession r) allow); [|reflexivity].
    cbn [flat_map]. now rewrite map_app.
Qed.

(** X7.  With the builtin [list] unshadowed, Step 4 reads the residues of
    a record only when its provider is on the allowlist: a record of
    another provider may lack [residues], or hold anything under it,
    without changing the outcome or the list. *)
Theorem predicted_cell_reads_allowlisted_only (e : env)
    (recs : list Annotation) (allow : list string) :
  e !! "list" = None ->
  holds (annotation_read allow) "annotations_data" e recs ->
  fst (predicted_cell allow e) = Ok tt /\
  snd (predicted_cell allow e) !! PRED =
    Some (VList (map VInt (extractPredictedBindingResidues recs allow))).
Proof.
  intros Hl (doc & acc & items & Hdoc & Hacc & Hshape & Hrecs).
  unfold predicted_cell. run_step.
  erewrite run_bind
    by (eapply data_items_run; [| |exact Hshape]; now simplify_map_eq).
  destruct (predicted_loop_read allow items recs Hrecs
              (<[PRED := VList []]> e) []) as (e' & Hrun & Hout);
    [now simplify_map_eq|].
  cbv beta. rewrite Hrun. cbn [fst snd]. now rewrite Hout.
Qed.

Lemma py_eq_str n s : n <> VStr s -> py_eq n (VStr s) = false.
Proof.
  intros Hn. destruct n as [| | |t| |]; try reflexivity.
  cbn. apply String.eqb_neq. congruence.
Qed.

Lemma interface_loop_no_match cand_var partner items :
  Forall (other_partner partner) items ->
  forall (e : env),
    e !! IFACE = Some (VList []) ->
    exists e',
      for_each "item" items (interface_body cand_var partner) e =
        (Ok tt, e') /\
      e' !! IFACE = Some (VList []).
Proof.
  induction 1 as [|o items (m & n & -> & Hn & Hne) _ IH]; intros e Hout.
  - exists e. split; [reflexivity | exact Hout].
  - cbn [for_each]. run_step. unfold interface_body at 1.
    run_step. simpl getitem. rewrite Hn. run_step.
    rewrite (py_eq_str _ _ Hne). run_step.
    apply IH. now simplify_map_eq.
Qed.

(** X8.  Step 6 looks up its candidate collection only inside a record
    whose name is the target: when no record bears the name and the
    builtin [list] is unshadowed, the cell ends normally with an empty
    list whatever the candidate variable holds, even if it is unbound, and
    without reading the residues of any record.  This holds for the cell
    of either copy of the notebook. *)
Theorem interface_cell_without_match (e : env)
    (acc_var cand_var partner : string) (doc : value) (acc : string)
    (items : list value) :
  acc_var <> IFACE ->
  e !! "list" = None ->
  e !! "interactions_data" = Some doc ->
  e !! acc_var = Some (VStr acc) ->
  document doc acc items ->
  Forall (other_partner partner) items ->
  fst (interface_cell acc_var cand_var partner e) = Ok tt /\
  snd (interface_cell acc_var cand_var partner e) !! IFACE = Some (VList []).
Proof.
  intros Hne Hl Hdoc Hacc Hshape Hitems.
  unfold interface_cell. run_step.
  erewrite run_bind
    by (eapply data_items_run; [| |exact Hshape];
        [now simplify_map_eq | now rewrite lookup_insert_ne]).
  destruct (interface_loop_no_match cand_var partner items Hitems
              (<[IFACE := VList []]> e)) as (e' & Hrun & Hout);
    [now simplify_map_eq|].
  cbv beta. rewrite Hrun. cbn [fst snd]. now rewrite Hout.
Qed.

Lemma for_each_app x l1 l2 body (e : env) :
  for_each x (l1 ++ l2) body e =
  bind (for_each x l1 body) (fun _ => for_each x l2 body) e.
Proof.
  revert e. induction l1 as [|v l1 IH]; intros e; [reflexivity|].
  cbn [for_each app]. unfold bind, assign in *.
  destruct (body (<[x := v]> e)) as [[[]|err] e1]; [apply IH | reflexivity].
Qed.

Lemma predicted_body_no_residues allow m p (e : env) :
  e !! "provider_data" = Some (VDict m) ->
  dict_get "accession" m = Some (VStr p) ->
  mem p allow = true ->
  dict_get "residues" m = None ->
  predicted_body allow e = (Err (KeyError (VStr "residues")), e).
Proof.
  intros Hpd Hid Hmem Hnone. unfold predicted_body.
  run_step. simpl getitem. rewrite Hid. run_step.
  rewrite contains_allow, Hmem. do 2 run_step.
  simpl getitem. rewrite Hnone. reflexivity.
Qed.

(** X9.  When Step 4, run with the builtin [list] unshadowed, meets an
    allowlisted record without [residues], it raises
    [KeyError('residues')] and leaves bound, in
    [all_predicted_ligand_binding_residues], the residues gathered from
    the records before it: the list is neither reset nor completed. *)
Theorem predicted_cell_partial_on_error (e : env) (doc : value)
    (acc : string) (good rest : list value) (recs : list Annotation)
    (m : list (string * value)) (p : string) (allow : list string) :
  e !! "list" = None ->
  e !! "annotations_data" = Some doc ->
  e !! "ACCESSION" = Some (VStr acc) ->
  document doc acc (good ++ VDict m :: rest) ->
  Forall2 annotation_obj good recs ->
  dict_get "accession" m = Some (VStr p) ->
  mem p allow = true ->
  dict_get "residues" m = None ->
  fst (predicted_cell allow e) = Err (KeyError (VStr "residues")) /\
  snd (predicted_cell allow e) !! PRED =
    Some (VList (map VInt (extractPredictedBindingResidues recs allow))).
Proof.
  intros Hl Hdoc Hacc Hshape Hgood Hid Hmem Hnone.
  assert (H : exists e',
    predicted_cell allow e = (Err (KeyError (VStr "residues")), e') /\
    e' !! PRED =
      Some (VList (map VInt (extractPredictedBindingResidues recs allow)))).
  { unfold predicted_cell. run_step.
    erewrite run_bind
      by (eapply data_items_run; [| |exact Hshape]; now simplify_map_eq).
    cbv beta. rewrite for_each_app.
    destruct (predicted_loop allow good recs Hgood
                (<[PRED := VList []]> e) []) as (e1 & Hrun & Hout);
      [now simplify_map_eq|].
    erewrite run_bind by exact Hrun.
    cbn [for_each]. run_step.
    erewrite run_bind_err
      by (eapply predicted_body_no_residues; eauto; now simplify_map_eq).
    eexists. split; [reflexivity|]. now simplify_map_eq. }
  destruct H as (e' & -> & Hout). split; [reflexivity | exact Hout].
Qed.

(** ** The three stages together *)

Lemma run_keeps {A} xs (m : M A) (e e' : env) r x :
  writes_only xs m -> m e = (r, e') -> ~ In x xs -> e' !! x = e !! x.
Proof.
  intros Hw Hrun Hx. change e' with (snd (r, e')). rewrite <- Hrun.
  now apply Hw.
Qed.

Ltac fresh_name := cbn; intuition discriminate.

Lemma pipeline_run (e : env) anns ints ligs :
  e !! "list" = None ->
  holds annotation_obj "annotations_data" e anns ->
  holds interaction_obj "interactions_data" e ints ->
  holds ligand_obj "ligands_data" e ligs ->
  exists e',
    pipeline Example.step4 Example.step6 Example.step7 e = (Ok tt, e') /\
    e' !! PRED =
      Some (VList (map VInt
        (extractPredictedBindingResidues anns ["p2rank"; "cansar"]))) /\
    e' !! IFACE =
      Some (VList (map VInt
        (extractInterfaceResidues ints "Hirudin variant-1"
           (extractPredictedBindingResidues anns ["p2rank"; "cansar"])))) /\
    e' !! LIGS =
      Some (VList (map VStr
        (extractLigandsOverlapping ligs
           (extractInterfaceResidues ints "Hirudin variant-1"
              (extractPredictedBindingResidues anns ["p2rank"; "cansar"]))))).
Proof.
  intros Hl Hanns Hints Hligs.
  destruct (predicted_cell_run e anns ["p2rank"; "cansar"] Hl Hanns)
    as (e1 & Hrun1 & Hout1).
  pose proof (fun x => run_keeps _ _ _ _ _ x
                (wo_predicted_cell ["p2rank"; "cansar"]) Hrun1) as K1.
  assert (Hl1 : e1 !! "list" = None) by (rewrite K1; [exact Hl | fresh_name]).
  assert (Hints1 : holds interaction_obj "interactions_data" e1 ints)
    by (eapply holds_keeps; [| |exact Hints]; apply K1; fresh_name).
  assert (Hligs1 : holds ligand_obj "ligands_data" e1 ligs)
    by (eapply holds_keeps; [| |exact Hligs]; apply K1; fresh_name).
  destruct (interface_cell_run e1 ints "Hirudin variant-1" _ Hl1 Hints1 Hout1)
    as (e2 & Hrun2 & Hout2).
  pose proof (fun x => run_keeps _ _ _ _ _ x
                (wo_interface_cell "ACCESSION" PRED "Hirudin variant-1")
                Hrun2) as K2.
  assert (Hl2 : e2 !! "list" = None) by (rewrite K2; [exact Hl1 | fresh_name]).
  assert (Hligs2 : holds ligand_obj "ligands_data" e2 ligs)
    by (eapply holds_keeps; [| |exact Hligs1]; apply K2; fresh_name).
  destruct (ligand_cell_run e2 ligs _ Hl2 Hligs2 Hout2)
    as (e3 & Hrun3 & Hout3).
  pose proof (fun x => run_keeps _ _ _ _ _ x
                (wo_ligand_cell "ACCESSION") Hrun3) as K3.
  exists e3. unfold pipeline.
  erewrite run_bind by exact Hrun1. erewrite run_bind by exact Hrun2.
  split; [exact Hrun3|]. split; [|split; [|exact Hout3]].
  - rewrite K3, K2 by fresh_name. exact Hout1.
  - rewrite K3 by fresh_name. exact Hout2.
Qed.

Lemma extractPredictedBindingResidues_In recs allow z :
  In z (extractPredictedBindingResidues recs allow) <->
  exists r, In r recs /\ In (providerAccession r) allow /\
            In z (annotationResidues r).
Proof.
  unfold extractPredictedBindingResidues. rewrite in_flat_map. split.
  - intros (r & Hr & Hz). apply filter_In in Hr as [Hr Hm].
    exists r. repeat split; auto. now apply mem_In.
  - intros (r & Hr & Hm & Hz). exists r. split; [|exact Hz].
    apply filter_In. split; [exact Hr | now apply mem_In].
Qed.

Lemma extractLigandsOverlapping_In recs target a :
  In a (extractLigandsOverlapping recs target) <->
  exists r, In r recs /\ ligandAccession r = a /\
            exists z, In z (ligandResidues r) /\ In z target.
Proof.
  unfold extractLigandsOverlapping. rewrite in_map_iff. split.
  - intros (r & Ha & Hr). apply filter_In in Hr as [Hr Hq].
    exists r. repeat split; auto. now apply qualifies_iff.
  - intros (r & Hr & Ha & Hq). exists r. split; [exact Ha|].
    apply filter_In. split; [exact Hr | now apply qualifies_iff].
Qed.

Lemma filter_length_le {A} (f : A -> bool) l :
  (length (List.filter f l) <= length l)%nat.
Proof.
  induction l as [|a l IH]; cbn; [lia|]. destruct (f a); cbn; lia.
Qed.

(** X10.  On a kernel that holds the three documents and leaves the
    builtin [list] unshadowed, the three cells run in order end normally
    and [ligand_list] holds an accession exactly when some ligand record
    of that accession has a residue that is both a residue of a record
    named "Hirudin variant-1" and a residue given by p2rank or canSAR; the
    list is never longer than the list of ligand records. *)
Theorem pipeline_selects_shared_residues (e : env) (anns : list Annotation)
    (ints : list Interaction) (ligs : list Ligand) :
  e !! "list" = None ->
  holds annotation_obj "annotations_data" e anns ->
  holds interaction_obj "interactions_data" e ints ->
  holds ligand_obj "ligands_data" e ligs ->
  exists out : list string,
    fst (pipeline Example.step4 Example.step6 Example.step7 e) = Ok tt /\
    snd (pipeline Example.step4 Example.step6 Example.step7 e) !! LIGS =
      Some (VList (map VStr out)) /\
    (forall a, In a out <->
       exists l z i p,
         In l ligs /\ ligandAccession l = a /\ In z (ligandResidues l) /\
         In i ints /\ partnerName i = "Hirudin variant-1" /\
         In z (interfaceResidues i) /\
         In p anns /\
         (providerAccession p = "p2rank" \/ providerAccession p = "cansar") /\
         In z (annotationResidues p)) /\
    (length out <= length ligs)%nat.
Proof.
  intros Hlist Hanns Hints Hligs.
  destruct (pipeline_run e anns ints ligs Hlist Hanns Hints Hligs)
    as (e' & Hrun & _ & _ & Hout).
  eexists. rewrite Hrun. cbn [fst snd].
  split; [reflexivity|]. split; [exact Hout|]. split.
  - intros a. rewrite extractLigandsOverlapping_In. split.
    + intros (l & Hl & Ha & z & Hz & Ht).
      apply extractInterfaceResidues_In in Ht as (i & Hi & Hn & Hzi & Hc).
      apply extractPredictedBindingResidues_In in Hc as (p & Hp & Hm & Hzp).
      exists l, z, i, p. repeat split; auto.
      cbn in Hm. intuition.
    + intros (l & z & i & p & Hl & Ha & Hz & Hi & Hn & Hzi & Hp & Hm & Hzp).
      exists l. repeat split; auto. exists z. split; [exact Hz|].
      apply extractInterfaceResidues_In. exists i. repeat split; auto.
      apply extractPredictedBindingResidues_In. exists p.
      repeat split; auto. cbn. intuition.
  - unfold extractLigandsOverlapping. rewrite length_map.
    apply filter_length_le.
Qed.

Lemma extractInterfaceResidues_nil recs partner :
  extractInterfaceResidues recs partner [] = [].
Proof.
  unfold extractInterfaceResidues.
  induction (List.filter _ recs) as [|r l IH]; [reflexivity|].
  cbn [flat_map]. rewrite IH, app_nil_r.
  induction (interfaceResidues r) as [|z zs IHz]; [reflexivity | exact IHz].
Qed.

Lemma extractLigandsOverlapping_nil recs :
  extractLigandsOverlapping recs [] = [].
Proof.
  unfold extractLigandsOverlapping. rewrite filter_none; [reflexivity|].
  intros r _. unfold qualifies.
  induction (ligandResidues r) as [|z zs IH]; [reflexivity | exact IH].
Qed.

(** X11.  On a kernel that holds the three documents and leaves the
    builtin [list] unshadowed, emptiness runs down the stages without any
    exception: when no annotation record comes from p2rank or canSAR, the
    three lists are all empty; when no interaction record is named
    "Hirudin variant-1", the interface residues and the ligand list are
    empty. *)
Theorem pipeline_empty_cascade (e : env) (anns : list Annotation)
    (ints : list Interaction) (ligs : list Ligand) :
  e !! "list" = None ->
  holds annotation_obj "annotations_data" e anns ->
  holds interaction_obj "interactions_data" e ints ->
  holds ligand_obj "ligands_data" e ligs ->
  fst (pipeline Example.step4 Example.step6 Example.step7 e) = Ok tt /\
  ((forall p, In p anns ->
      providerAccession p <> "p2rank" /\ providerAccession p <> "cansar") ->
   snd (pipeline Example.step4 Example.step6 Example.step7 e) !! PRED =
     Some (VList []) /\
   snd (pipeline Example.step4 Example.step6 Example.step7 e) !! IFACE =
     Some (VList []) /\
   snd (pipeline Example.step4 Example.step6 Example.step7 e) !! LIGS =
     Some (VList [])) /\
  ((forall i, In i ints -> partnerName i <> "Hirudin variant-1") ->
   snd (pipeline Example.step4 Example.step6 Example.step7 e) !! IFACE =
     Some (VList []) /\
   snd (pipeline Example.step4 Example.step6 Example.step7 e) !! LIGS =
     Some (VList [])).
Proof.
  intros Hlist Hanns Hints Hligs.
  destruct (pipeline_run e anns ints ligs Hlist Hanns Hints Hligs)
    as (e' & Hrun & Hp & Hi & Hl).
  rewrite Hrun. cbn [fst snd]. split; [reflexivity|]. split.
  - intros Hnone.
    assert (H0 : extractPredictedBindingResidues anns ["p2rank"; "cansar"]
                 = []).
    { unfold extractPredictedBindingResidues.
      rewrite filter_none; [reflexivity|]. intros p Hin.
      destruct (Hnone p Hin) as [H1 H2]. cbn.
      apply String.eqb_neq in H1, H2. now rewrite H1, H2. }
    rewrite H0 in Hp, Hi, Hl.
    rewrite extractInterfaceResidues_nil in Hi, Hl.
    rewrite extractLigandsOverlapping_nil in Hl. auto.
  - intros Hnone.
    assert (H0 : forall cand,
              extractInterfaceResidues ints "Hirudin variant-1" cand = []).
    { intros cand. unfold extractInterfaceResidues.
      rewrite filter_none; [reflexivity|]. intros i Hin.
      apply String.eqb_neq. now apply Hnone. }
    rewrite H0 in Hi, Hl. rewrite extractLigandsOverlapping_nil in Hl. auto.
Qed.

(** ** The older copy under the names it reads *)

Lemma older_names_kept {A} xs (m : M A) (e : env) :
  writes_only xs m ->
  ~ In "ACCESSION" xs -> ~ In "accession" xs ->
  ~ In PRED xs -> ~ In "all_ligand_binding_residues" xs ->
  older_names_bound e -> older_names_bound (snd (m e)).
Proof.
  intros Hw H1 H2 H3 H4 ((v & Hv1 & Hv2) & (c & Hc1 & Hc2)).
  split; [exists v | exists c]; rewrite !Hw by assumption; auto.
Qed.

Lemma same_on_bind {A B} R (m1 m2 : M A) (k1 k2 : A -> M B) :
  same_on R m1 m2 -> (forall a, same_on R (k1 a) (k2 a)) ->
  same_on R (bind m1 k1) (bind m2 k2).
Proof.
  intros Hm Hk e He. destruct (Hm e He) as [Heq HR]. unfold bind.
  rewrite <- Heq. destruct (m1 e) as [[a|x] e']; cbn [snd] in *.
  - now apply Hk.
  - split; [reflexivity | exact HR].
Qed.

Lemma same_on_refl {A} xs (m : M A) :
  writes_only xs m ->
  ~ In "ACCESSION" xs -> ~ In "accession" xs ->
  ~ In PRED xs -> ~ In "all_ligand_binding_residues" xs ->
  same_on older_names_bound m m.
Proof.
  intros Hw H1 H2 H3 H4 e He. split; [reflexivity|].
  now apply (older_names_kept xs).
Qed.

Lemma same_on_pure {A} (m : M A) :
  writes_only [] m -> same_on older_names_bound m m.
Proof. intros Hw. apply (same_on_refl [] m Hw); cbn; tauto. Qed.

Lemma same_on_name_accession :
  same_on older_names_bound (name "accession") (name "ACCESSION").
Proof.
  intros e He. pose proof He as ((v & Hv1 & Hv2) & _).
  unfold name. rewrite Hv1, Hv2. split; [reflexivity | exact He].
Qed.

Lemma same_on_name_candidates :
  same_on older_names_bound (name "all_ligand_binding_residues") (name PRED).
Proof.
  intros e He. pose proof He as (_ & (c & Hc1 & Hc2)).
  unfold name. rewrite Hc1, Hc2. split; [reflexivity | exact He].
Qed.

Lemma same_on_for_each x items (b1 b2 : M unit) :
  x <> "ACCESSION" -> x <> "accession" ->
  x <> PRED -> x <> "all_ligand_binding_residues" ->
  same_on older_names_bound b1 b2 ->
  same_on older_names_bound (for_each x items b1) (for_each x items b2).
Proof.
  intros H1 H2 H3 H4 Hb. induction items as [|v items IH]; cbn [for_each].
  - apply same_on_pure, wo_ret.
  - apply same_on_bind.
    + apply (same_on_refl [x]); [apply wo_assign; now left|..];
        cbn; intuition congruence.
    + intros _. apply same_on_bind; [exact Hb | intros _; exact IH].
Qed.

Lemma same_on_data_items doc_var :
  same_on older_names_bound
    (data_items doc_var "accession") (data_items doc_var "ACCESSION").
Proof.
  unfold data_items.
  apply same_on_bind; [apply same_on_pure, wo_name|]. intros d.
  apply same_on_bind; [apply same_on_name_accession|]. intros k.
  apply same_on_pure.
  apply wo_bind; [apply wo_lift|]. intros a.
  apply wo_bind; [apply wo_lift|]. intros b. apply wo_lift.
Qed.

Lemma same_on_interacting xs :
  same_on older_names_bound
    (interacting "all_ligand_binding_residues" xs) (interacting PRED xs).
Proof.
  induction xs as [|x xs IH]; cbn [interacting].
  - apply same_on_pure, wo_ret.
  - apply same_on_bind; [apply same_on_pure, wo_lift|]. intros i.
    apply same_on_bind; [apply same_on_name_candidates|]. intros c.
    apply same_on_bind; [apply same_on_pure, wo_lift|].
    intros [|]; [|exact IH].
    apply same_on_bind; [apply same_on_pure, wo_lift|]. intros v.
    apply same_on_bind; [exact IH|]. intros vs. apply same_on_pure, wo_ret.
Qed.

Lemma same_on_step6 : same_on older_names_bound Older.step6 Example.step6.
Proof.
  unfold Older.step6, Example.step6, interface_cell.
  apply same_on_bind.
  { apply (same_on_refl [IFACE]); [apply wo_fresh_list; now left|..];
      cbn; intuition discriminate. }
  intros _. apply same_on_bind; [apply same_on_data_items|]. intros items.
  apply same_on_for_each; try discriminate. unfold interface_body.
  apply same_on_bind; [apply same_on_pure, wo_name|]. intros it.
  apply same_on_bind; [apply same_on_pure, wo_lift|]. intros n.
  destruct (py_eq n (VStr "Hirudin variant-1"));
    [|apply same_on_pure, wo_ret].
  apply same_on_bind; [apply same_on_pure, wo_name|]. intros it'.
  apply same_on_bind; [apply same_on_pure, wo_lift|]. intros rs.
  apply same_on_bind; [apply same_on_pure, wo_lift|]. intros xs.
  apply same_on_bind; [apply same_on_interacting|]. intros found.
  apply same_on_bind.
  { apply (same_on_refl ["interacting_residues"]);
      [apply wo_assign; now left|..]; cbn; intuition discriminate. }
  intros _. apply (same_on_refl [IFACE]); [apply wo_extend; now left|..];
    cbn; intuition discriminate.
Qed.

Lemma same_on_step7 : same_on older_names_bound Older.step7 Example.step7.
Proof.
  unfold Older.step7, Example.step7, ligand_cell.
  apply same_on_bind.
  { apply (same_on_refl [LIGS]); [apply wo_fresh_list; now left|..];
      cbn; intuition discriminate. }
  intros _. apply same_on_bind; [apply same_on_data_items|]. intros items.
  apply (same_on_refl ["ligand"; "residue"; LIGS]);
    try (cbn; intuition discriminate).
  apply wo_for_each; [names|]. unfold ligand_body.
  apply wo_bind; [apply wo_name|]. intros lg.
  do 2 (apply wo_bind; [apply wo_lift|]; intros ?).
  apply wo_for_break; [names|]. unfold ligand_probe.
  apply wo_bind; [apply wo_name|]. intros r.
  apply wo_bind; [apply wo_lift|]. intros i.
  apply wo_bind; [apply wo_name|]. intros c.
  apply wo_bind; [apply wo_lift|]. intros [|]; [|apply wo_ret].
  apply wo_bind; [|intros _; apply wo_ret].
  apply wo_append; [names|].
  apply wo_bind; [apply wo_name|]. intros lg'. apply wo_lift.
Qed.

(** X12.  On a kernel that binds [accession] to the object bound to
    [ACCESSION] and [all_ligand_binding_residues] to the object bound to
    [all_predicted_ligand_binding_residues], the Step 6 and Step 7 cells
    of the older copy do exactly what those of [example.ipynb] do:
    same outcome, same kernel afterwards. *)
Theorem older_cells_agree_when_bound (e : env) :
  older_names_bound e ->
  Older.step6 e = Example.step6 e /\
  Older.step7 e = Example.step7 e /\
  Older.step7 (snd (Older.step6 e)) = Example.step7 (snd (Example.step6 e)).
Proof.
  intros He. destruct (same_on_step6 e He) as [H6 He6].
  split; [exact H6|]. split; [apply same_on_step7, He|].
  rewrite <- H6. apply same_on_step7, He6.
Qed.

Lemma data_items_unbound_accession doc_var acc_var (e : env) :
  e !! acc_var = None ->
  exists x, data_items doc_var acc_var e = (Err x, e).
Proof.
  intros Hn. unfold data_items, bind, name.
  destruct (e !! doc_var); rewrite ?Hn; eauto.
Qed.

Lemma older_step6_unbound (e : env) :
  e !! "accession" = None -> is_ok (fst (Older.step6 e)) = false.
Proof.
  intros Hn. unfold Older.step6, interface_cell.
  destruct (e !! "list") as [v|] eqn:Hl.
  - now erewrite run_bind_err by (eapply fresh_list_shadowed; exact Hl).
  - run_step.
    destruct (data_items_unbound_accession "interactions_data" "accession"
                (<[IFACE := VList []]> e)) as (x & Hx);
      [now simplify_map_eq|].
    erewrite run_bind_err by exact Hx. reflexivity.
Qed.

(** ** Running the notebook from top to bottom *)

Lemma run_all_step c rest (e e' : env) out :
  c e = (Ok tt, e', out) ->
  run_all (c :: rest) e =
    match run_all rest e' with
    | (r, e'', out') => (r, e'', (out ++ out')%list)
    end.
Proof. intros H. cbn [run_all]. now rewrite H. Qed.


Lemma quiet_run {A} (m : M A) (e e' : env) r :
  m e = (r, e') -> quiet m e = (r, e', []).
Proof. intros H. unfold quiet. now rewrite H. Qed.

Lemma show_cell_run x v (e : env) :
  e !! x = Some v -> e !! "print" = None ->
  show_cell x e = (Ok tt, e, [Shown v]).
Proof. intros H Hp. unfold show_cell. now rewrite H, Hp. Qed.

Lemma import_cell_run (e : env) : import_cell e = (Ok tt, delete "requests" e).
Proof. reflexivity. Qed.

Lemma helpers_cell_run (e : env) :
  helpers_cell e = (Ok tt, delete "parse_data" (delete "get_data" e)).
Proof. reflexivity. Qed.

Lemma fetch_cell_run scope net var url_var (e : env) a u r doc :
  helpers_bound scope ->
  e !! "ACCESSION" = Some a ->
  e !! url_var = Some (VStr u) ->
  net u = Ok r -> status_code r = 200 -> json r = Ok doc ->
  fetch_cell scope net var url_var e =
    (Ok tt, <[var := doc]> e, [Effect JsonCalled]).
Proof.
  intros (Hr & Hg & Hp) Ha Hu Hnet H200 Hj. unfold fetch_cell.
  destruct (scope "parse_data"); [|contradiction].
  destruct (scope "get_data"); [|contradiction].
  rewrite Ha, Hu. cbn [requests_get text_of].
  rewrite (fetch_answered _ _ _ _ _ Hr Hnet). unfold parse_data.
  rewrite H200, Hj. reflexivity.
Qed.

Lemma step2_cell_run acc (e : env) :
  step2_cell acc e =
    (Ok tt,
     <["LIGANDS_URL" := VStr (endpoint_url "ligand_sites" acc)]>
     (<["INTERACTIONS_URL" := VStr (endpoint_url "interface_residues" acc)]>
     (<["ANNOTATIONS_URL" := VStr (endpoint_url "annotations" acc)]>
     (<["ACCESSION" := VStr acc]> e)))).
Proof. reflexivity. Qed.

Lemma holds_inserted {R} (rep : value -> R -> Prop) doc_var (e : env)
    doc acc items recs :
  doc_var <> "ACCESSION" ->
  e !! "ACCESSION" = Some (VStr acc) ->
  document doc acc items -> Forall2 rep items recs ->
  holds rep doc_var (<[doc_var := doc]> e) recs.
Proof.
  intros Hne Ha Hd Hr. exists doc, acc, items.
  rewrite lookup_insert_eq, lookup_insert_ne by exact Hne. auto.
Qed.

Ltac look :=
  repeat first
    [ rewrite lookup_insert_eq
    | rewrite lookup_insert_ne by discriminate
    | rewrite lookup_delete_ne by discriminate ];
  try reflexivity.

(** X13.  Run from top to bottom on any kernel that shadows none of the
    builtins [list], [print] and [len], with the helpers bound and a
    network that serves the three documents with status 200, the notebook
    ends normally; each fetch calls [json()] once, the lists printed and
    left in the kernel are the predicted residues, the partner names, the
    interface residues and the ligands computed from the records served,
    and the line printed before the ligands gives their number.  Nothing
    else that the kernel held before changes any of this. *)
Theorem example_notebook_run (scope : string -> option binding)
    (net : string -> result Response) (acc : string) (e : env)
    (anns : list Annotation) (ints : list Interaction) (ligs : list Ligand) :
  e !! "list" = None -> e !! "print" = None -> e !! "len" = None ->
  helpers_bound scope ->
  serves net "annotations" acc annotation_obj anns ->
  serves net "interface_residues" acc interaction_obj ints ->
  serves net "ligand_sites" acc ligand_obj ligs ->
  exists e',
    run_all (example_notebook scope net acc) e =
      (Ok tt, e',
       [ Effect JsonCalled;
         Shown (VList (map VInt (predicted_of anns)));
         Effect JsonCalled;
         Shown (VList (map VStr (map partnerName ints)));
         Shown (VList (map VInt (interface_of anns ints)));
         Effect JsonCalled;
         Effect (Printed
           ("There are " ++ decimal (length (ligands_of anns ints ligs)) ++
            " ligands observed in PDB that bind to this "));
         Effect (Printed
           "These are the Chemical Componant identifiers of the ligands:");
         Shown (VList (map VStr (ligands_of anns ints ligs))) ]) /\
    e' !! PRED = Some (VList (map VInt (predicted_of anns))) /\
    e' !! IFACE = Some (VList (map VInt (interface_of anns ints))) /\
    e' !! LIGS = Some (VList (map VStr (ligands_of anns ints ligs))).
Proof.
  intros Hlist Hprint Hlen Hscope
         (r1 & d1 & i1 & Hn1 & Hs1 & Hj1 & Hd1 & Hr1)
         (r2 & d2 & i2 & Hn2 & Hs2 & Hj2 & Hd2 & Hr2)
         (r3 & d3 & i3 & Hn3 & Hs3 & Hj3 & Hd3 & Hr3).
  unfold example_notebook.
  (* Steps 1 to 3 *)
  rewrite (run_all_step _ _ _ _ _ (quiet_run _ _ _ _ (import_cell_run e))).
  rewrite (run_all_step _ _ _ _ _
             (quiet_run _ _ _ _ (step2_cell_run acc (delete "requests" e)))).
  rewrite (run_all_step _ _ _ _ _ (quiet_run _ _ _ _ (helpers_cell_run _))).
  set (e1 := delete "parse_data" _).
  assert (B1 : forall x, In x ["list"; "print"; "len"] -> e1 !! x = None).
  { intros x [<- | [<- | [<- | []]]]; unfold e1; look; assumption. }
  assert (A1 : e1 !! "ACCESSION" = Some (VStr acc)) by (unfold e1; look).
  assert (U1 : e1 !! "ANNOTATIONS_URL" =
               Some (VStr (endpoint_url "annotations" acc)))
    by (unfold e1; look).
  (* Step 4 *)
  rewrite (run_all_step _ _ _ _ _
             (fetch_cell_run scope net "annotations_data" "ANNOTATIONS_URL"
                e1 _ _ r1 d1 Hscope A1 U1 Hn1 Hs1 Hj1)).
  set (e2 := <["annotations_data" := d1]> e1).
  assert (B2 : forall x, In x ["list"; "print"; "len"] -> e2 !! x = None).
  { intros x Hx. unfold e2. rewrite lookup_insert_ne; [now apply B1|].
    revert Hx. clear. cbn. intuition (subst; discriminate). }
  assert (H2 : holds annotation_obj "annotations_data" e2 anns)
    by (eapply holds_inserted; [discriminate | exact A1 | exact Hd1 | exact Hr1]).
  destruct (predicted_cell_run e2 anns ["p2rank"; "cansar"]
              (B2 "list" ltac:(cbn; auto)) H2)
    as (e3 & Hrun3 & Hout3).
  pose proof (fun x => run_keeps _ _ _ _ _ x
                (wo_predicted_cell ["p2rank"; "cansar"]) Hrun3) as K3.
  assert (B3 : forall x, In x ["list"; "print"; "len"] -> e3 !! x = None).
  { intros x Hx. rewrite K3; [now apply B2|].
    revert Hx. clear. cbn. intuition (subst; discriminate). }
  rewrite (run_all_step _ _ _ _ _ (quiet_run _ _ _ _ Hrun3)).
  rewrite (run_all_step _ _ _ _ _
             (show_cell_run _ _ _ Hout3 (B3 "print" ltac:(cbn; auto)))).
  (* Step 5 *)
  assert (A3 : e3 !! "ACCESSION" = Some (VStr acc))
    by (rewrite K3 by fresh_name; unfold e2; look; exact A1).
  assert (U3 : e3 !! "INTERACTIONS_URL" =
               Some (VStr (endpoint_url "interface_residues" acc)))
    by (rewrite K3 by fresh_name; unfold e2, e1; look).
  rewrite (run_all_step _ _ _ _ _
             (fetch_cell_run scope net "interactions_data" "INTERACTIONS_URL"
                e3 _ _ r2 d2 Hscope A3 U3 Hn2 Hs2 Hj2)).
  set (e4 := <["interactions_data" := d2]> e3).
  assert (B4 : forall x, In x ["list"; "print"; "len"] -> e4 !! x = None).
  { intros x Hx. unfold e4. rewrite lookup_insert_ne; [now apply B3|].
    revert Hx. clear. cbn. intuition (subst; discriminate). }
  assert (H4 : holds interaction_obj "interactions_data" e4 ints)
    by (eapply holds_inserted; [discriminate | exact A3 | exact Hd2 | exact Hr2]).
  destruct (partner_names_loop_run e4 ints (B4 "list" ltac:(cbn; auto)) H4)
    as (e5 & Hrun5 & Hout5).
  pose proof (fun x => run_keeps _ _ _ _ _ x wo_partner_names_loop Hrun5)
    as K5.
  assert (B5 : forall x, In x ["list"; "print"; "len"] -> e5 !! x = None).
  { intros x Hx. rewrite K5; [now apply B4|].
    revert Hx. clear. cbn. intuition (subst; discriminate). }
  assert (C5 : partner_names_cell e4 =
               (Ok tt, e5, [Shown (VList (map VStr (map partnerName ints)))])).
  { unfold partner_names_cell. rewrite Hrun5.
    now rewrite (show_cell_run _ _ _ Hout5 (B5 "print" ltac:(cbn; auto))). }
  rewrite (run_all_step _ _ _ _ _ C5).
  (* Step 6 *)
  assert (H5 : holds interaction_obj "interactions_data" e5 ints)
    by (eapply holds_keeps; [| |exact H4]; apply K5; fresh_name).
  assert (P5 : e5 !! PRED = Some (VList (map VInt (predicted_of anns)))).
  { rewrite K5 by fresh_name. unfold e4.
    rewrite lookup_insert_ne by discriminate. exact Hout3. }
  destruct (interface_cell_run e5 ints "Hirudin variant-1" _
              (B5 "list" ltac:(cbn; auto)) H5 P5)
    as (e6 & Hrun6 & Hout6).
  pose proof (fun x => run_keeps _ _ _ _ _ x
                (wo_interface_cell "ACCESSION" PRED "Hirudin variant-1")
                Hrun6) as K6.
  assert (B6 : forall x, In x ["list"; "print"; "len"] -> e6 !! x = None).
  { intros x Hx. rewrite K6; [now apply B5|].
    revert Hx. clear. cbn. intuition (subst; discriminate). }
  rewrite (run_all_step _ _ _ _ _ (quiet_run _ _ _ _ Hrun6)).
  rewrite (run_all_step _ _ _ _ _
             (show_cell_run _ _ _ Hout6 (B6 "print" ltac:(cbn; auto)))).
  (* Step 7 *)
  assert (A6 : e6 !! "ACCESSION" = Some (VStr acc)).
  { rewrite K6, K5 by fresh_name. unfold e4.
    rewrite lookup_insert_ne by discriminate. exact A3. }
  assert (U6 : e6 !! "LIGANDS_URL" =
               Some (VStr (endpoint_url "ligand_sites" acc))).
  { rewrite K6, K5 by fresh_name. unfold e4.
    rewrite lookup_insert_ne by discriminate.
    rewrite K3 by fresh_name. unfold e2, e1. look. }
  rewrite (run_all_step _ _ _ _ _
             (fetch_cell_run scope net "ligands_data" "LIGANDS_URL"
                e6 _ _ r3 d3 Hscope A6 U6 Hn3 Hs3 Hj3)).
  set (e7 := <["ligands_data" := d3]> e6).
  assert (B7 : forall x, In x ["list"; "print"; "len"] -> e7 !! x = None).
  { intros x Hx. unfold e7. rewrite lookup_insert_ne; [now apply B6|].
    revert Hx. clear. cbn. intuition (subst; discriminate). }
  assert (H7 : holds ligand_obj "ligands_data" e7 ligs)
    by (eapply holds_inserted; [discriminate | exact A6 | exact Hd3 | exact Hr3]).
  assert (I7 : e7 !! IFACE = Some (VList (map VInt (interface_of anns ints))))
    by (unfold e7; rewrite lookup_insert_ne by discriminate; exact Hout6).
  destruct (ligand_cell_run e7 ligs _ (B7 "list" ltac:(cbn; auto)) H7 I7)
    as (e8 & Hrun8 & Hout8).
  pose proof (fun x => run_keeps _ _ _ _ _ x
                (wo_ligand_cell "ACCESSION") Hrun8) as K8.
  assert (B8 : forall x, In x ["list"; "print"; "len"] -> e8 !! x = None).
  { intros x Hx. rewrite K8; [now apply B7|].
    revert Hx. clear. cbn. intuition (subst; discriminate). }
  rewrite (run_all_step _ _ _ _ _ (quiet_run _ _ _ _ Hrun8)).
  assert (C8 : count_cell e8 =
    (Ok tt, e8,
     [Effect (Printed
        ("There are " ++ decimal (length (ligands_of anns ints ligs)) ++
         " ligands observed in PDB that bind to this "))])).
  { unfold count_cell. change LIGS with "ligand_list" in Hout8.
    rewrite Hout8, (B8 "len"), (B8 "print") by (cbn; auto).
    cbn [py_len]. now rewrite length_map. }
  rewrite (run_all_step _ _ _ _ _ C8).
  assert (L8 : listing_cell e8 =
    (Ok tt, e8,
     [Effect (Printed
        "These are the Chemical Componant identifiers of the ligands:");
      Shown (VList (map VStr (ligands_of anns ints ligs)))])).
  { unfold listing_cell. change LIGS with "ligand_list" in Hout8.
    now rewrite Hout8, (B8 "print") by (cbn; auto). }
  rewrite (run_all_step _ _ _ _ _ L8).
  cbn [run_all app].
  exists e8. split; [reflexivity|]. split; [|split; [|exact Hout8]].
  - rewrite K8 by fresh_name. unfold e7.
    rewrite lookup_insert_ne by discriminate.
    rewrite K6 by fresh_name. exact P5.
  - rewrite K8 by fresh_name. unfold e7.
    rewrite lookup_insert_ne by discriminate. exact Hout6.
Qed.

(** ** What a run leaves alone *)

Lemma touches_only_incl xs ys c :
  incl xs ys -> touches_only xs c -> touches_only ys c.
Proof. intros Hi Hc e x Hx. apply Hc. intros Hin. apply Hx, Hi, Hin. Qed.

Lemma touches_quiet xs (m : M unit) :
  writes_only xs m -> touches_only xs (quiet m).
Proof. intros Hw e x Hx. unfold quiet. cbn [fst snd]. now apply Hw. Qed.

Lemma touches_fetch scope net var url_var :
  touches_only [var] (fetch_cell scope net var url_var).
Proof.
  intros e x Hx. apply fetch_cell_keeps. intros ->. apply Hx. now left.
Qed.

Lemma touches_show x : touches_only [] (show_cell x).
Proof.
  intros e y _. unfold show_cell.
  destruct (e !! x); [|reflexivity]. now destruct (e !! "print").
Qed.

Lemma touches_partner_names :
  touches_only ["interaction_partner_names"; "item"] partner_names_cell.
Proof.
  intros e x Hx. rewrite partner_names_cell_kernel.
  now apply wo_partner_names_loop.
Qed.

Lemma touches_count : touches_only [] count_cell.
Proof.
  intros e y _. unfold count_cell.
  destruct (e !! "ligand_list") as [v|]; [|reflexivity].
  destruct (e !! "len"); [reflexivity|].
  destruct (py_len v); [|reflexivity]. now destruct (e !! "print").
Qed.

Lemma touches_listing : touches_only [] listing_cell.
Proof.
  intros e y _. unfold listing_cell.
  destruct (e !! "print"); [reflexivity|]. now destruct (e !! "ligand_list").
Qed.

Lemma wo_rebinds xs x : In x xs -> writes_only xs (rebinds x).
Proof.
  intros Hx e y Hy. unfold rebinds. cbn [snd].
  apply lookup_delete_ne. intros ->. contradiction.
Qed.

Lemma wo_import_cell : writes_only ["requests"] import_cell.
Proof. apply wo_rebinds. now left. Qed.

Lemma wo_helpers_cell : writes_only ["get_data"; "parse_data"] helpers_cell.
Proof.
  unfold helpers_cell.
  apply wo_bind; [apply wo_rebinds; names|]. intros _. apply wo_rebinds. names.
Qed.

Lemma wo_step2_cell acc :
  writes_only ["ACCESSION"; "ANNOTATIONS_URL"; "INTERACTIONS_URL";
               "LIGANDS_URL"] (step2_cell acc).
Proof.
  unfold step2_cell.
  repeat (apply wo_bind; [apply wo_assign; names|]; intros _).
  apply wo_assign. names.
Qed.

Lemma touches_run_all xs (cells : list (IO unit)) :
  Forall (touches_only xs) cells -> touches_only xs (run_all cells).
Proof.
  induction 1 as [|c cells Hc _ IH]; intros e x Hx; [reflexivity|].
  cbn [run_all]. specialize (Hc e x Hx).
  destruct (c e) as [[[[]|err] e'] out]; cbn [fst snd] in *; [|exact Hc].
  specialize (IH e' x Hx).
  destruct (run_all cells e') as [[r e''] out']. cbn [fst snd] in *.
  now rewrite IH.
Qed.

Lemma run_all_cut (I : env -> Prop) (pre : list (IO unit)) (c : IO unit)
    (rest : list (IO unit)) :
  Forall (fun c' : IO unit => forall e, I e -> I (snd (fst (c' e)))) pre ->
  (forall e, I e -> is_ok (fst (fst (c e))) = false) ->
  forall e, I e -> run_all (pre ++ c :: rest) e = run_all (pre ++ [c]) e.
Proof.
  induction 1 as [|c' pre Hc' _ IH]; intros Hfail e He.
  - cbn [app run_all]. specialize (Hfail e He).
    destruct (c e) as [[[[]|err] e'] out]; [discriminate | reflexivity].
  - cbn [app run_all]. specialize (Hc' e He).
    destruct (c' e) as [[[[]|err] e'] out]; [|reflexivity].
    now rewrite (IH Hfail e' Hc').
Qed.

Lemma run_all_ends_failing (I : env -> Prop) (pre : list (IO unit))
    (c : IO unit) :
  Forall (fun c' : IO unit => forall e, I e -> I (snd (fst (c' e)))) pre ->
  (forall e, I e -> is_ok (fst (fst (c e))) = false) ->
  forall e, I e -> is_ok (fst (fst (run_all (pre ++ [c]) e))) = false.
Proof.
  induction 1 as [|c' pre Hc' _ IH]; intros Hfail e He.
  - cbn [app run_all]. specialize (Hfail e He).
    destruct (c e) as [[[[]|err] e'] out]; [discriminate | reflexivity].
  - cbn [app run_all]. specialize (Hc' e He).
    destruct (c' e) as [[[[]|err] e'] out]; [|reflexivity].
    specialize (IH Hfail e' Hc').
    destruct (run_all (pre ++ [c]) e') as [[r e''] out']. exact IH.
Qed.

Lemma example_cells_touch scope net acc :
  Forall (touches_only notebook_names) (example_notebook scope net acc).
Proof.
  unfold example_notebook.
  repeat (apply List.Forall_cons; [|]); try apply List.Forall_nil;
    (eapply touches_only_incl;
     [|first [ apply touches_quiet;
               first [ apply wo_import_cell | apply wo_helpers_cell
                     | apply wo_step2_cell | apply wo_predicted_cell
                     | apply wo_interface_cell | apply wo_ligand_cell ]
             | apply touches_fetch | apply touches_show
             | apply touches_partner_names | apply touches_count
             | apply touches_listing ]]);
    intros ? ?; cbn in *; intuition (subst; auto 20).
Qed.

Lemma older_cells_touch scope net acc :
  Forall (touches_only notebook_names) (older_notebook scope net acc).
Proof.
  unfold older_notebook.
  repeat (apply List.Forall_cons; [|]); try apply List.Forall_nil;
    (eapply touches_only_incl;
     [|first [ apply touches_quiet;
               first [ apply wo_import_cell | apply wo_helpers_cell
                     | apply wo_step2_cell | apply wo_predicted_cell
                     | apply wo_interface_cell | apply wo_ligand_cell ]
             | apply touches_fetch | apply touches_show
             | apply touches_partner_names | apply touches_count
             | apply touches_listing ]]);
    intros ? ?; cbn in *; intuition (subst; auto 20).
Qed.

(** X14.  A run of either notebook, complete or cut short by an exception,
    rebinds none but the notebook's own twenty names, those bound by the
    [import] and the two [def]s among them: everything else that the
    kernel holds is left as it was. *)
Theorem notebook_touches_own_names (scope : string -> option binding)
    (net : string -> result Response) (acc : string) :
  touches_only notebook_names (run_all (example_notebook scope net acc)) /\
  touches_only notebook_names (run_all (older_notebook scope net acc)).
Proof.
  split; apply touches_run_all;
    [apply example_cells_touch | apply older_cells_touch].
Qed.

Lemma touches_keeps_unbound xs c x :
  touches_only xs c -> ~ In x xs ->
  forall e : env, e !! x = None -> snd (fst (c e)) !! x = None.
Proof. intros Hc Hx e He. now rewrite Hc. Qed.

(** X15.  Run from top to bottom on a kernel that does not bind
    [accession], a fresh kernel for one, the older copy never ends
    normally, whatever the network serves: it stops at Step 6 at the
    latest, and [ligand_list] is left as it was before the run. *)
Theorem older_notebook_never_completes (scope : string -> option binding)
    (net : string -> result Response) (acc : string) (e : env) :
  e !! "accession" = None ->
  is_ok (fst (fst (run_all (older_notebook scope net acc) e))) = false /\
  snd (fst (run_all (older_notebook scope net acc) e)) !! LIGS = e !! LIGS.
Proof.
  intros He.
  set (pre := [ quiet import_cell;
                quiet (step2_cell acc);
                quiet helpers_cell;
                fetch_cell scope net "annotations_data" "ANNOTATIONS_URL";
                quiet Older.step4;
                show_cell PRED;
                fetch_cell scope net "interactions_data" "INTERACTIONS_URL";
                partner_names_cell ]).
  set (rest := [ show_cell IFACE;
                 fetch_cell scope net "ligands_data" "LIGANDS_URL";
                 quiet Older.step7; count_cell ]).
  change (older_notebook scope net acc)
    with (pre ++ quiet Older.step6 :: rest)%list.
  assert (Hpre : Forall (touches_only
                   ["requests"; "get_data"; "parse_data";
                    "ACCESSION"; "ANNOTATIONS_URL"; "INTERACTIONS_URL";
                    "LIGANDS_URL"; "annotations_data"; "interactions_data";
                    "interaction_partner_names"; "provider_data"; "residues";
                    PRED; "item"; "interacting_residues"; IFACE])
                   (pre ++ [quiet Older.step6])).
  { unfold pre. cbn [app].
    repeat (apply List.Forall_cons; [|]); try apply List.Forall_nil;
      (eapply touches_only_incl;
       [|first [ apply touches_quiet;
                 first [ apply wo_import_cell | apply wo_helpers_cell
                       | apply wo_step2_cell | apply wo_predicted_cell
                       | apply wo_interface_cell ]
               | apply touches_fetch | apply touches_show
               | apply touches_partner_names ]]);
      intros ? ?; cbn in *; intuition (subst; auto 20). }
  assert (Hinv : Forall (fun c' : IO unit => forall e0 : env,
                   e0 !! "accession" = None ->
                   snd (fst (c' e0)) !! "accession" = None) pre).
  { pose proof Hpre as Hpre'. apply Forall_app in Hpre' as [Hpre' _].
    eapply Forall_impl; [exact Hpre'|]. intros c Hc.
    apply (touches_keeps_unbound _ c "accession" Hc). fresh_name. }
  assert (Hfail : forall e0 : env, e0 !! "accession" = None ->
            is_ok (fst (fst (quiet Older.step6 e0))) = false)
    by (intros e0 H0; apply older_step6_unbound, H0).
  rewrite (run_all_cut (fun e0 : env => e0 !! "accession" = None)
             pre (quiet Older.step6) rest Hinv Hfail e He).
  split.
  - exact (run_all_ends_failing (fun e0 : env => e0 !! "accession" = None)
             pre (quiet Older.step6) Hinv Hfail e He).
  - apply (touches_run_all _ _ Hpre). fresh_name.
Qed.


(** ** The addresses of Step 2 *)

Lemma append_cancel_l (s x y : string) : (s ++ x = s ++ y)%string -> x = y.
Proof.
  induction s as [|c s IH]; cbn; intros H; [exact H|].
  injection H as H. now apply IH.
Qed.

(** X17.  For every accession the three addresses built in Step 2 are
    pairwise different, also across accessions, and an address determines
    the accession it was built from: no two requests of the notebook can
    be taken for one another. *)
Theorem endpoint_urls_apart (a b : string) :
  endpoint_url "annotations" a <> endpoint_url "interface_residues" b /\
  endpoint_url "annotations" a <> endpoint_url "ligand_sites" b /\
  endpoint_url "interface_residues" a <> endpoint_url "ligand_sites" b /\
  (forall endpoint,
     endpoint_url endpoint a = endpoint_url endpoint b -> a = b).
Proof.
  unfold endpoint_url. repeat split.
  - intros H. apply append_cancel_l in H. discriminate.
  - intros H. apply append_cancel_l in H. discriminate.
  - intros H. apply append_cancel_l in H. discriminate.
  - intros endpoint H. apply append_cancel_l in H.
    apply append_cancel_l in H. cbn in H. now injection H.
Qed.

(** ** The further properties at concrete kernels *)

Lemma fetch_with_working_handler_demo :
  unreachable "url" = Err (RequestException "ConnectionError") /\
  catches "Exception" (RequestException "ConnectionError") = true /\
  fetch (scope_with_Error "Exception") unreachable "P00734" "url" =
    (Err (AttributeError "status_code"),
     [Printed "There was an error while retrieving the data: ConnectionError"]).
Proof.
  split; [reflexivity|]. split; [reflexivity|].
  exact (fetch_with_working_handler "Exception" unreachable "P00734" "url"
           (RequestException "ConnectionError") eq_refl eq_refl).
Defined.

Lemma partner_names_cell_correct_demo :
  demo_kernel !! "list" = None /\
  demo_kernel !! "print" = None /\
  holds interaction_obj "interactions_data" demo_kernel demo_interactions /\
  snd (partner_names_cell demo_kernel) =
    [Shown (VList [VStr "Prothrombin"; VStr "Hirudin variant-1";
                   VStr "hirudin variant-1"])].
Proof.
  split; [reflexivity|]. split; [reflexivity|].
  split; [apply kernel_holds_interactions|].
  exact (proj1 (proj2 (proj2 (partner_names_cell_correct demo_kernel
           demo_interactions eq_refl eq_refl
           (kernel_holds_interactions _ _ _))))).
Defined.

Lemma kernel_with_unread_record_holds :
  holds (annotation_read ["p2rank"; "cansar"]) "annotations_data"
    kernel_with_unread_record annotations_with_unread.
Proof.
  eexists _, "P00734", _.
  split; [reflexivity|]. split; [reflexivity|].
  split; [apply document_json_rep|].
  repeat apply List.Forall2_cons; try apply List.Forall2_nil;
    (eexists; split; [reflexivity|]; split; [reflexivity|];
     intros Hm;
     first [ discriminate Hm
           | eexists; split; [reflexivity | apply residue_json_rep] ]).
Qed.

Lemma predicted_cell_reads_allowlisted_only_demo :
  kernel_with_unread_record !! "list" = None /\
  holds (annotation_read ["p2rank"; "cansar"]) "annotations_data"
    kernel_with_unread_record annotations_with_unread /\
  snd (predicted_cell ["p2rank"; "cansar"] kernel_with_unread_record) !! PRED =
    Some (VList [VInt 1; VInt 2; VInt 3]).
Proof.
  split; [reflexivity|]. split; [apply kernel_with_unread_record_holds|].
  exact (proj2 (predicted_cell_reads_allowlisted_only
           kernel_with_unread_record annotations_with_unread
           ["p2rank"; "cansar"] eq_refl kernel_with_unread_record_holds)).
Defined.

Lemma older_kernel_without_hirudin_items :
  Forall (other_partner "Hirudin variant-1")
    [ record_json "name" "Prothrombin" [1; 2]; VDict [("name", VNone)] ].
Proof.
  repeat apply List.Forall_cons; try apply List.Forall_nil;
    (eexists _, _; split; [reflexivity|]; split; [reflexivity|];
     discriminate).
Qed.

Lemma interface_cell_without_match_demo :
  older_kernel_without_hirudin !! "list" = None /\
  older_kernel_without_hirudin !! "all_ligand_binding_residues" = None /\
  fst (Older.step6 older_kernel_without_hirudin) = Ok tt /\
  snd (Older.step6 older_kernel_without_hirudin) !! IFACE = Some (VList []).
Proof.
  split; [reflexivity|]. split; [reflexivity|].
  exact (interface_cell_without_match older_kernel_without_hirudin
           "accession" "all_ligand_binding_residues" "Hirudin variant-1"
           _ "P00734" _ ltac:(discriminate) eq_refl eq_refl eq_refl
           (document_json_rep _ _) older_kernel_without_hirudin_items).
Defined.

Lemma predicted_cell_partial_on_error_demo :
  kernel_with_broken_record !! "list" = None /\
  fst (predicted_cell ["p2rank"; "cansar"] kernel_with_broken_record) =
    Err (KeyError (VStr "residues")) /\
  snd (predicted_cell ["p2rank"; "cansar"] kernel_with_broken_record) !! PRED =
    Some (VList [VInt 1; VInt 2]).
Proof.
  split; [reflexivity|].
  exact (predicted_cell_partial_on_error kernel_with_broken_record
           _ "P00734" _ _
           [ {| providerAccession := "p2rank";
                annotationResidues := [1; 2] |} ]
           [("accession", VStr "p2rank")] "p2rank" ["p2rank"; "cansar"]
           eq_refl eq_refl eq_refl (document_json_rep _ _)
           (annotation_json_rep
              [ {| providerAccession := "p2rank";
                   annotationResidues := [1; 2] |} ])
           eq_refl eq_refl eq_refl).
Defined.

Lemma pipeline_selects_shared_residues_demo :
  demo_kernel !! "list" = None /\
  holds annotation_obj "annotations_data" demo_kernel demo_annotations /\
  holds interaction_obj "interactions_data" demo_kernel demo_interactions /\
  holds ligand_obj "ligands_data" demo_kernel demo_ligands /\
  exists out : list string,
    fst (pipeline Example.step4 Example.step6 Example.step7 demo_kernel) =
      Ok tt /\
    snd (pipeline Example.step4 Example.step6 Example.step7 demo_kernel)
      !! LIGS = Some (VList (map VStr out)) /\
    (length out <= length demo_ligands)%nat.
Proof.
  split; [reflexivity|].
  split; [apply kernel_holds_annotations|].
  split; [apply kernel_holds_interactions|].
  split; [apply kernel_holds_ligands|].
  destruct (pipeline_selects_shared_residues demo_kernel demo_annotations
              demo_interactions demo_ligands eq_refl
              (kernel_holds_annotations _ _ _)
              (kernel_holds_interactions _ _ _)
              (kernel_holds_ligands _ _ _)) as (out & H1 & H2 & _ & H4).
  exists out. auto.
Defined.

Lemma pipeline_empty_cascade_demo :
  kernel [] demo_interactions demo_ligands !! "list" = None /\
  holds annotation_obj "annotations_data"
    (kernel [] demo_interactions demo_ligands) [] /\
  fst (pipeline Example.step4 Example.step6 Example.step7
         (kernel [] demo_interactions demo_ligands)) = Ok tt /\
  snd (pipeline Example.step4 Example.step6 Example.step7
         (kernel [] demo_interactions demo_ligands)) !! LIGS =
    Some (VList []).
Proof.
  split; [reflexivity|]. split; [apply kernel_holds_annotations|].
  pose proof (pipeline_empty_cascade
                (kernel [] demo_interactions demo_ligands)
                [] demo_interactions demo_ligands eq_refl
                (kernel_holds_annotations _ _ _)
                (kernel_holds_interactions _ _ _)
                (kernel_holds_ligands _ _ _)) as (H1 & H2 & _).
  split; [exact H1|]. apply H2. intros p [].
Defined.

Lemma demo_kernel_older_names_bound :
  older_names_bound demo_kernel_older_names.
Proof.
  split; [exists (VStr "P00734") | exists (VList (map VInt [1; 2; 3; 3; 4]))];
    split; reflexivity.
Qed.

Lemma older_cells_agree_when_bound_demo :
  older_names_bound demo_kernel_older_names /\
  Older.step6 demo_kernel_older_names = Example.step6 demo_kernel_older_names.
Proof.
  split; [apply demo_kernel_older_names_bound|].
  exact (proj1 (older_cells_agree_when_bound demo_kernel_older_names
                  demo_kernel_older_names_bound)).
Defined.

Lemma demo_network_serves :
  serves demo_network "annotations" "P00734" annotation_obj demo_annotations /\
  serves demo_network "interface_residues" "P00734" interaction_obj
    demo_interactions /\
  serves demo_network "ligand_sites" "P00734" ligand_obj demo_ligands.
Proof.
  repeat split;
    (eexists _, _, _; split; [reflexivity|]; split; [reflexivity|];
     split; [reflexivity|]; split; [apply document_json_rep|]);
    [apply annotation_json_rep | apply interaction_json_rep
    | apply ligand_json_rep].
Qed.

Lemma notebook_scope_helpers : helpers_bound notebook_scope.
Proof. repeat split; discriminate. Qed.

Lemma example_notebook_run_demo :
  (∅ : env) !! "list" = None /\
  (∅ : env) !! "print" = None /\
  (∅ : env) !! "len" = None /\
  helpers_bound notebook_scope /\
  exists e',
    run_all (example_notebook notebook_scope demo_network "P00734") ∅ =
      (Ok tt, e',
       [ Effect JsonCalled;
         Shown (VList [VInt 1; VInt 2; VInt 3; VInt 3; VInt 4]);
         Effect JsonCalled;
         Shown (VList [VStr "Prothrombin"; VStr "Hirudin variant-1";
                       VStr "hirudin variant-1"]);
         Shown (VList [VInt 3; VInt 1]);
         Effect JsonCalled;
         Effect (Printed
           "There are 3 ligands observed in PDB that bind to this ");
         Effect (Printed
           "These are the Chemical Componant identifiers of the ligands:");
         Shown (VList [VStr "TYS"; VStr "MRD"; VStr "TYS"]) ]).
Proof.
  split; [reflexivity|]. split; [reflexivity|]. split; [reflexivity|].
  split; [apply notebook_scope_helpers|].
  destruct (example_notebook_run notebook_scope demo_network "P00734"
              (∅ : env) demo_annotations demo_interactions demo_ligands
              (lookup_empty _) (lookup_empty _) (lookup_empty _)
              notebook_scope_helpers
              (proj1 demo_network_serves)
              (proj1 (proj2 demo_network_serves))
              (proj2 (proj2 demo_network_serves)))
    as (e' & Hrun & _).
  exists e'. exact Hrun.
Defined.

Lemma older_notebook_never_completes_demo :
  (∅ : env) !! "accession" = None /\
  is_ok (fst (fst (run_all
           (older_notebook notebook_scope demo_network "P00734") ∅))) = false.
Proof.
  split; [reflexivity|].
  exact (proj1 (older_notebook_never_completes notebook_scope demo_network
                  "P00734" ∅ eq_refl)).
Defined.


